(** * Smart parking management system (parking_system.py)

    A shallow embedding of the parking system of the repository: the
    exception hierarchy, [Vehicle] and [Driver], the [ParkingPass] classes
    with their fee rules, [ParkingLot], [ParkingSystem] and one iteration of
    the menu loop, followed by the properties the specification states
    about them.

    Conventions of the embedding.
    - A Python [str] is a [string] (a sequence of 8-bit characters);
      [upper] and [lower] act on the ASCII letters.
    - A Python [float] is a primitive binary64 [float]; its operations are
      the IEEE 754 ones, specified by [Prim2SF] and the [SpecFloat]
      functions.
    - A naive [datetime.datetime] is the number of microseconds since a
      fixed origin, a [timedelta] is a difference of two of them.
    - A [dict] keyed by plates is a [gmap string _]; a method that mutates
      [self] is a function from the object's state to an outcome, the new
      state and the lines it printed.
    - [datetime.datetime.now()] is an argument [now] of each method that
      reads the clock (each reads it at most once). *)

From Stdlib Require Import ZArith Zpower Floats Lia Ascii String.
From Stdlib Require Uint63.
From stdpp Require Import base strings gmap.

Open Scope Z_scope.

(** ** Section 1: custom exceptions *)

(** The exception classes that the program raises.  [AttributeError] is
    what Python raises when a method is called on [None], [KeyError] what
    [dict.pop] raises for a missing key. *)
Inductive exn_class :=
  | ParkingError
  | DuplicatePlateError
  | FullLotError
  | VehicleNotParkedError
  | ValueError
  | AttributeError
  | KeyError.

(** [isinstance(e, ParkingError)]: the class itself and its three
    subclasses. *)
Definition is_ParkingError (c : exn_class) : bool :=
  match c with
  | ParkingError | DuplicatePlateError | FullLotError
  | VehicleNotParkedError => true
  | ValueError | AttributeError | KeyError => false
  end.

(** [isinstance(e, (ParkingError, ValueError))]. *)
Definition is_ParkingError_or_ValueError (c : exn_class) : bool :=
  match c with
  | ParkingError | DuplicatePlateError | FullLotError
  | VehicleNotParkedError | ValueError => true
  | AttributeError | KeyError => false
  end.

(** The message of an exception: one constructor per [raise] site, with
    the values its f-string interpolates. *)
Inductive message :=
  | MsgEmptyPlate                       (* Vehicle._validate_plate *)
  | MsgEmptyId                          (* Driver._validate_id *)
  | MsgNegativeHours                    (* calculate_fee *)
  | MsgCapacity                         (* ParkingLot._validate_capacity *)
  | MsgLotFull (lot : string)           (* add_vehicle *)
  | MsgAlreadyParked (plate : string)   (* add_vehicle *)
  | MsgNotParked (plate : string)       (* remove_vehicle *)
  | MsgNotRegistered (plate : string)   (* _get_driver_by_plate *)
  | MsgPlateRegistered (plate : string) (* register_driver_and_vehicle *)
  | MsgPassAlreadyIssued (cls plate : string) (* issue_pass *)
  | MsgInvalidPassType                  (* issue_pass *)
  | MsgNoActivePass (plate : string)    (* park_vehicle *)
  | MsgNoneHasNoAttribute (attr : string)
  | MsgMissingKey (key : string).

Record exn := Exn { exn_cls : exn_class; exn_msg : message }.

(** The outcome of a call: a returned value or a raised exception. *)
Inductive result (A : Type) :=
  | Return (a : A)
  | Raise (e : exn).
Arguments Return {A} a.
Arguments Raise {A} e.

Definition is_Raise {A} (r : result A) : bool :=
  match r with Raise _ => true | Return _ => false end.

(** ** Strings: [str.upper], [str.lower], [str.replace(" ", "")] *)

Definition ascii_upper (c : ascii) : ascii :=
  let n := nat_of_ascii c in
  if (97 <=? n)%nat && (n <=? 122)%nat then ascii_of_nat (n - 32) else c.

Definition ascii_lower (c : ascii) : ascii :=
  let n := nat_of_ascii c in
  if (65 <=? n)%nat && (n <=? 90)%nat then ascii_of_nat (n + 32) else c.

Fixpoint str_upper (s : string) : string :=
  match s with
  | EmptyString => EmptyString
  | String c s' => String (ascii_upper c) (str_upper s')
  end.

Fixpoint str_lower (s : string) : string :=
  match s with
  | EmptyString => EmptyString
  | String c s' => String (ascii_lower c) (str_lower s')
  end.

(** [s.replace(" ", "")]: every space is dropped. *)
Fixpoint str_remove_spaces (s : string) : string :=
  match s with
  | EmptyString => EmptyString
  | String c s' =>
      if Ascii.eqb c " "%char then str_remove_spaces s'
      else String c (str_remove_spaces s')
  end.

(** The expression [plate.upper().replace(" ", "")] that every method
    applies to the plate it receives. *)
Definition clean_plate (plate : string) : string :=
  str_remove_spaces (str_upper plate).

(** ** Floats and time *)

(** A [datetime] and a [timedelta], in microseconds. *)
Abbreviation datetime := Z (only parsing).
Abbreviation timedelta := Z (only parsing).

(** An integer as the exact (unrounded) binary number [z * 2^0]. *)
Definition Z2SF (z : Z) : spec_float :=
  match z with
  | Z0 => S754_zero false
  | Zpos p => S754_finite false p 0
  | Zneg p => S754_finite true p 0
  end.

(** Python's [a / b] on two [int]s: the quotient correctly rounded to a
    float (round to nearest, ties to even). *)
Definition int_true_divide (a b : Z) : float :=
  SF2Prim (SF64div (Z2SF a) (Z2SF b)).

(** [timedelta.total_seconds()]: the microseconds divided by [10**6]. *)
Definition total_seconds (d : timedelta) : float :=
  int_true_divide d 1000000.

(** ** Section 2: core data classes *)

Record Vehicle := mkVehicle {
  license_plate : string;
  vehicle_type : string
}.

Definition Vehicle_validate_plate (plate : string) : result string :=
  if String.eqb plate "" then Raise (Exn ValueError MsgEmptyPlate)
  else Return (clean_plate plate).

Definition Vehicle_init (license_plate vehicle_type : string)
  : result Vehicle :=
  match Vehicle_validate_plate license_plate with
  | Raise e => Raise e
  | Return p => Return (mkVehicle p vehicle_type)
  end.

Record Driver := mkDriver {
  full_name : string;
  driver_id : string;
  vehicle : Vehicle
}.

Definition Driver_validate_id (driver_id : string) : result string :=
  if String.eqb driver_id "" then Raise (Exn ValueError MsgEmptyId)
  else Return driver_id.

Definition Driver_init (full_name driver_id : string) (vehicle : Vehicle)
  : result Driver :=
  match Driver_validate_id driver_id with
  | Raise e => Raise e
  | Return i => Return (mkDriver full_name i vehicle)
  end.

(** ** Section 3: pass classes *)

(** The class of a pass object, which selects [calculate_fee]. *)
Inductive pass_class := ParkingPass_cls | StudentPass_cls | StaffPass_cls.

Definition class_name (c : pass_class) : string :=
  match c with
  | ParkingPass_cls => "ParkingPass"
  | StudentPass_cls => "StudentPass"
  | StaffPass_cls => "StaffPass"
  end.

(** The pass identifier [f"{plate}-{now:%Y%m%d%H%M%S}"], kept as its two
    components. *)
Record ParkingPass := mkPass {
  pass_cls : pass_class;
  pass_id : string * datetime;
  driver : Driver;
  fee_rate : float
}.

Definition STUDENT_RATE : float := 2%float.
Definition STAFF_RATE : float := 3%float.

Definition ParkingPass_init (pass_id : string * datetime) (driver : Driver)
    (fee_rate : float) : ParkingPass :=
  mkPass ParkingPass_cls pass_id driver fee_rate.

Definition StudentPass_init (pass_id : string * datetime) (driver : Driver)
  : ParkingPass :=
  mkPass StudentPass_cls pass_id driver STUDENT_RATE.

Definition StaffPass_init (pass_id : string * datetime) (driver : Driver)
  : ParkingPass :=
  mkPass StaffPass_cls pass_id driver STAFF_RATE.

Definition ParkingPass_calculate_fee (self : ParkingPass)
    (hours_parked : float) : result float :=
  if PrimFloat.ltb hours_parked 0
  then Raise (Exn ValueError MsgNegativeHours)
  else Return (PrimFloat.mul hours_parked (fee_rate self)).

(** [StudentPass.calculate_fee] calls the parent's implementation. *)
Definition StudentPass_calculate_fee (self : ParkingPass)
    (hours_parked : float) : result float :=
  ParkingPass_calculate_fee self hours_parked.

Definition StaffPass_calculate_fee (self : ParkingPass)
    (hours_parked : float) : result float :=
  if PrimFloat.ltb hours_parked 0
  then Raise (Exn ValueError MsgNegativeHours)
  else if PrimFloat.leb hours_parked 1
  then Return 0%float
  else
    let chargeable_hours := PrimFloat.sub hours_parked 1 in
    Return (PrimFloat.mul chargeable_hours (fee_rate self)).

(** Method resolution: [p.calculate_fee(hours)]. *)
Definition calculate_fee (p : ParkingPass) (hours_parked : float)
  : result float :=
  match pass_cls p with
  | ParkingPass_cls => ParkingPass_calculate_fee p hours_parked
  | StudentPass_cls => StudentPass_calculate_fee p hours_parked
  | StaffPass_cls => StaffPass_calculate_fee p hours_parked
  end.

(** ** Printed lines and the state-and-exception monad *)

(** One constructor per [print] statement (or group of consecutive ones),
    with the values it formats. *)
Inductive output :=
  | PrintParked (plate : string)
  | PrintRemoved (plate : string)
  | PrintRegistered (d : Driver)
  | PrintPassIssued (p : ParkingPass)
  | PrintParkingFailed (e : exn)
  | PrintExitInfo (plate : string) (entry_time exit_time : datetime)
      (hours_parked seconds : float) (p : ParkingPass) (fee : float)
  | PrintRemovalFailed (e : exn)
  | PrintUnexpectedError (e : exn)
  | PrintPassesHeader
  | PrintNoActivePasses
  | PrintPassRow (plate : string) (p : ParkingPass) (owner : string)
      (parked : bool)
  | PrintPassesFooter
  | PrintMenu (parked_count : nat) (capacity : Z)
  | PrintPrompt (title : string)
  | PrintGoodbye
  | PrintInvalidChoice
  | PrintOperationError (e : exn)
  | PrintUnexpectedGeneralError (e : exn).

(** A method over an object of state [S]: the outcome, the state it
    leaves (also when it raises) and what it printed. *)
Definition M (S A : Type) : Type := S -> result A * S * list output.

#[global] Instance M_ret {S} : MRet (M S) :=
  fun A (a : A) s => (Return a, s, []).

#[global] Instance M_bind {S} : MBind (M S) :=
  fun A B (f : A -> M S B) (m : M S A) s =>
    match m s with
    | (Return a, s1, o1) =>
        let '(r, s2, o2) := f a s1 in (r, s2, o1 ++ o2)
    | (Raise e, s1, o1) => (Raise e, s1, o1)
    end.

Definition raise {S A} (e : exn) : M S A := fun s => (Raise e, s, []).

Definition print {S} (o : output) : M S unit :=
  fun s => (Return tt, s, [o]).

Definition gets {S A} (f : S -> A) : M S A := fun s => (Return (f s), s, []).

Definition modify {S} (f : S -> S) : M S unit :=
  fun s => (Return tt, f s, []).

Definition of_result {S A} (r : result A) : M S A := fun s => (r, s, []).

(** [try: body  except ...]: [handler e] is [Some h] when one of the
    [except] clauses matches [e], and [h] is then its body. *)
Definition try_except {S A} (body : M S A) (handler : exn -> option (M S A))
  : M S A :=
  fun s =>
    match body s with
    | (Raise e, s1, o1) =>
        match handler e with
        | Some h => let '(r, s2, o2) := h s1 in (r, s2, o1 ++ o2)
        | None => (Raise e, s1, o1)
        end
    | ok => ok
    end.

(** Projections of what a call produced. *)
Definition outcome {S A} (x : result A * S * list output) : result A :=
  fst (fst x).
Definition state_after {S A} (x : result A * S * list output) : S :=
  snd (fst x).
Definition printed {S A} (x : result A * S * list output) : list output :=
  snd x.

(** ** Section 4: ParkingLot *)

Record ParkingLot := mkLot {
  lot_name : string;
  lot_capacity : Z;
  parked_vehicles : gmap string datetime
}.

Definition ParkingLot_validate_capacity (capacity : Z) : result Z :=
  if capacity <=? 0 then Raise (Exn ValueError MsgCapacity)
  else Return capacity.

Definition ParkingLot_init (name : string) (capacity : Z)
  : result ParkingLot :=
  match ParkingLot_validate_capacity capacity with
  | Raise e => Raise e
  | Return c => Return (mkLot name c ∅)
  end.

Definition set_parked (f : gmap string datetime -> gmap string datetime)
    (lot : ParkingLot) : ParkingLot :=
  mkLot (lot_name lot) (lot_capacity lot) (f (parked_vehicles lot)).

(** [len(self._parked_vehicles) >= self._capacity]. *)
Definition is_full (lot : ParkingLot) : bool :=
  lot_capacity lot <=? Z.of_nat (size (parked_vehicles lot)).

(** [license_plate.upper().replace(" ", "") in self._parked_vehicles]. *)
Definition is_parked (lot : ParkingLot) (license_plate : string) : bool :=
  bool_decide (is_Some (parked_vehicles lot !! clean_plate license_plate)).

Definition add_vehicle (license_plate : string) (now : datetime)
  : M ParkingLot unit :=
  let plate := clean_plate license_plate in
  full ← gets is_full;
  if full : bool then
    name ← gets lot_name;
    raise (Exn FullLotError (MsgLotFull name))
  else
    parked ← gets (fun lot => is_parked lot plate);
    if parked : bool then
      raise (Exn ParkingError (MsgAlreadyParked plate))
    else
      modify (set_parked (insert plate now));;
      print (PrintParked plate).

Definition remove_vehicle (license_plate : string)
  : M ParkingLot datetime :=
  let plate := clean_plate license_plate in
  parked ← gets (fun lot => is_parked lot plate);
  if negb parked then
    raise (Exn VehicleNotParkedError (MsgNotParked plate))
  else
    entry ← gets (fun lot => parked_vehicles lot !! plate);
    match entry with
    | None => raise (Exn KeyError (MsgMissingKey plate))
    | Some entry_time =>
        modify (set_parked (delete plate));;
        print (PrintRemoved plate);;
        mret entry_time
    end.

(** [list(self._parked_vehicles.keys())]; the order of the keys is the
    map's, not the insertion order. *)
Definition get_parked_plates (lot : ParkingLot) : list string :=
  (map_to_list (parked_vehicles lot)).*1.

(** ** Section 5: ParkingSystem *)

Record ParkingSystem := mkSystem {
  parking_lot : ParkingLot;
  registered_drivers : gmap string Driver;
  issued_passes : gmap string ParkingPass
}.

Definition ParkingSystem_init (lot_name : string) (lot_capacity : Z)
  : result ParkingSystem :=
  match ParkingLot_init lot_name lot_capacity with
  | Raise e => Raise e
  | Return lot => Return (mkSystem lot ∅ ∅)
  end.

Definition set_drivers (f : gmap string Driver -> gmap string Driver)
    (sys : ParkingSystem) : ParkingSystem :=
  mkSystem (parking_lot sys) (f (registered_drivers sys)) (issued_passes sys).

Definition set_passes
    (f : gmap string ParkingPass -> gmap string ParkingPass)
    (sys : ParkingSystem) : ParkingSystem :=
  mkSystem (parking_lot sys) (registered_drivers sys) (f (issued_passes sys)).

(** A method call on [self._parking_lot]. *)
Definition on_lot {A} (m : M ParkingLot A) : M ParkingSystem A :=
  fun sys =>
    let '(r, lot, o) := m (parking_lot sys) in
    (r, mkSystem lot (registered_drivers sys) (issued_passes sys), o).

Definition _get_driver_by_plate (plate : string) : M ParkingSystem Driver :=
  let clean := clean_plate plate in
  found ← gets (fun sys => registered_drivers sys !! clean);
  match found with
  | None => raise (Exn ParkingError (MsgNotRegistered clean))
  | Some d => mret d
  end.

Definition register_driver_and_vehicle (name driver_id plate v_type : string)
  : M ParkingSystem unit :=
  let plate := clean_plate plate in
  known ← gets (fun sys =>
             bool_decide (is_Some (registered_drivers sys !! plate)));
  if known : bool then
    raise (Exn DuplicatePlateError (MsgPlateRegistered plate))
  else
    vehicle ← of_result (Vehicle_init plate v_type);
    driver ← of_result (Driver_init name driver_id vehicle);
    modify (set_drivers (insert plate driver));;
    print (PrintRegistered driver).

Definition issue_pass (plate pass_type : string) (now : datetime)
  : M ParkingSystem unit :=
  let plate := clean_plate plate in
  driver ← try_except (_get_driver_by_plate plate)
             (fun e => if is_ParkingError (exn_cls e)
                       then Some (raise e) else None);
  existing ← gets (fun sys => issued_passes sys !! plate);
  match existing with
  | Some p =>
      raise (Exn ParkingError
               (MsgPassAlreadyIssued (class_name (pass_cls p)) plate))
  | None =>
      let pass_id := (plate, now) in
      new_pass ←
        (if String.eqb (str_lower pass_type) "student"
         then mret (StudentPass_init pass_id driver)
         else if String.eqb (str_lower pass_type) "staff"
         then mret (StaffPass_init pass_id driver)
         else raise (Exn ValueError MsgInvalidPassType));
      modify (set_passes (insert plate new_pass));;
      print (PrintPassIssued new_pass)
  end.

(** The [try] suite of [park_vehicle]. *)
Definition park_vehicle_try (plate : string) (now : datetime)
  : M ParkingSystem unit :=
  has_pass ← gets (fun sys =>
                bool_decide (is_Some (issued_passes sys !! plate)));
  if negb has_pass then
    raise (Exn ParkingError (MsgNoActivePass plate))
  else
    on_lot (add_vehicle plate now).

Definition park_vehicle (plate : string) (now : datetime)
  : M ParkingSystem unit :=
  let plate := clean_plate plate in
  try_except (park_vehicle_try plate now)
    (fun e => if is_ParkingError (exn_cls e)
              then Some (print (PrintParkingFailed e)) else None).

(** [hours_parked]: the duration's seconds divided by [3600.0]. *)
Definition hours_of (parked_duration : timedelta) : float :=
  PrimFloat.div (total_seconds parked_duration) 3600.

(** The [try] suite of [remove_vehicle_and_fee]. *)
Definition remove_vehicle_and_fee_try (plate : string) (now : datetime)
    (entry_time_override : option datetime) : M ParkingSystem unit :=
  entry_time ← on_lot (remove_vehicle plate);
  let exit_time := now in
  let entry_time :=
    match entry_time_override with
    | Some t => t
    | None => entry_time
    end in
  let parked_duration := exit_time - entry_time in
  let hours_parked := hours_of parked_duration in
  parking_pass ← gets (fun sys => issued_passes sys !! plate);
  match parking_pass with
  | None =>
      raise (Exn AttributeError (MsgNoneHasNoAttribute "calculate_fee"))
  | Some p =>
      fee ← of_result (calculate_fee p hours_parked);
      print (PrintExitInfo plate entry_time exit_time hours_parked
               (total_seconds parked_duration) p fee)
  end.

Definition remove_vehicle_and_fee (plate : string) (now : datetime)
    (entry_time_override : option datetime) : M ParkingSystem unit :=
  let plate := clean_plate plate in
  try_except (remove_vehicle_and_fee_try plate now entry_time_override)
    (fun e => if is_ParkingError (exn_cls e)
              then Some (print (PrintRemovalFailed e))
              else Some (print (PrintUnexpectedError e))).

(** The body of the [for] loop of [list_active_passes], over the items of
    the pass dictionary. *)
Fixpoint list_pass_rows (items : list (string * ParkingPass))
  : M ParkingSystem unit :=
  match items with
  | [] => mret tt
  | (plate, card) :: rest =>
      owner ← gets (fun sys => registered_drivers sys !! plate);
      parked ← gets (fun sys => is_parked (parking_lot sys) plate);
      match owner with
      | None => raise (Exn AttributeError (MsgNoneHasNoAttribute "full_name"))
      | Some d => print (PrintPassRow plate card (full_name d) parked)
      end;;
      list_pass_rows rest
  end.

Definition list_active_passes : M ParkingSystem unit :=
  print PrintPassesHeader;;
  items ← gets (fun sys => map_to_list (issued_passes sys));
  match items with
  | [] => print PrintNoActivePasses
  | _ => list_pass_rows items;; print PrintPassesFooter
  end.

(** ** The menu loop *)

(** What the user types in one iteration: the choice and the answers to
    the prompts of that choice.  [ChoiceOther] is any line other than
    ["1"] to ["6"]. *)
Inductive menu_input :=
  | Choice1 (name driver_id plate v_type : string)
  | Choice2 (plate pass_type : string)
  | Choice3 (plate : string)
  | Choice4 (plate : string)
  | Choice5
  | Choice6
  | ChoiceOther.

Definition _show_menu : M ParkingSystem unit :=
  parked_count ← gets (fun sys =>
                    length (get_parked_plates (parking_lot sys)));
  capacity ← gets (fun sys => lot_capacity (parking_lot sys));
  print (PrintMenu parked_count capacity).

(** One iteration of [while True] in [run_menu]; the value returned is
    [false] when the iteration ends in [break].  [now] is what the clock
    reads during the iteration. *)
Definition menu_iteration (inp : menu_input) (now : datetime)
  : M ParkingSystem bool :=
  _show_menu;;
  try_except
    (match inp with
     | Choice1 name driver_id plate v_type =>
         print (PrintPrompt "Driver and Vehicle Registration");;
         register_driver_and_vehicle name driver_id plate v_type;;
         mret true
     | Choice2 plate pass_type =>
         print (PrintPrompt "Pass Issuance");;
         issue_pass plate pass_type now;;
         mret true
     | Choice3 plate =>
         print (PrintPrompt "Vehicle Parking");;
         park_vehicle plate now;;
         mret true
     | Choice4 plate =>
         print (PrintPrompt "Vehicle Removal and Fee Calculation");;
         remove_vehicle_and_fee plate now None;;
         mret true
     | Choice5 => list_active_passes;; mret true
     | Choice6 => print PrintGoodbye;; mret false
     | ChoiceOther => print PrintInvalidChoice;; mret true
     end)
    (fun e => if is_ParkingError_or_ValueError (exn_cls e)
              then Some (print (PrintOperationError e);; mret true)
              else Some (print (PrintUnexpectedGeneralError e);; mret true)).

(** [run_menu] over the lines typed so far, each iteration with its clock
    reading; it stops at the first [break]. *)
Fixpoint run_menu (inputs : list (menu_input * datetime))
  : M ParkingSystem unit :=
  match inputs with
  | [] => mret tt
  | (inp, now) :: rest =>
      continue ← menu_iteration inp now;
      if continue : bool then run_menu rest else mret tt
  end.

(** ** Callers *)

(** A use of a [ParkingLot] from outside: the two mutators and the three
    queries. *)
Inductive lot_op :=
  | OpAddVehicle (license_plate : string) (now : datetime)
  | OpRemoveVehicle (license_plate : string)
  | OpIsFull
  | OpIsParked (license_plate : string)
  | OpGetParkedPlates.

Definition do_lot_op (op : lot_op) : M ParkingLot unit :=
  match op with
  | OpAddVehicle plate now => add_vehicle plate now
  | OpRemoveVehicle plate => remove_vehicle plate;; mret tt
  | OpIsFull => gets is_full;; mret tt
  | OpIsParked plate => gets (fun lot => is_parked lot plate);; mret tt
  | OpGetParkedPlates => gets get_parked_plates;; mret tt
  end.

(** The lot after a sequence of operations, by a caller that goes on
    after an operation raised. *)
Definition run_lot_ops (ops : list lot_op) (lot : ParkingLot) : ParkingLot :=
  foldl (fun l op => state_after (do_lot_op op l)) lot ops.

(** A call of one of the public methods of [ParkingSystem]. *)
Inductive call :=
  | CallRegister (name driver_id plate v_type : string)
  | CallIssuePass (plate pass_type : string) (now : datetime)
  | CallPark (plate : string) (now : datetime)
  | CallRemove (plate : string) (now : datetime)
      (entry_time_override : option datetime)
  | CallListPasses.

Definition do_call (c : call) : M ParkingSystem unit :=
  match c with
  | CallRegister name driver_id plate v_type =>
      register_driver_and_vehicle name driver_id plate v_type
  | CallIssuePass plate pass_type now => issue_pass plate pass_type now
  | CallPark plate now => park_vehicle plate now
  | CallRemove plate now override => remove_vehicle_and_fee plate now override
  | CallListPasses => list_active_passes
  end.

(** The system after a sequence of calls, by a caller (such as the menu
    loop) that goes on after a call raised. *)
Definition run_calls (calls : list call) (sys : ParkingSystem)
  : ParkingSystem :=
  foldl (fun s c => state_after (do_call c s)) sys calls.

(** ** Predicates used in the statements *)

(** The sign of a float that is not a NaN. *)
Definition sf_signed (b : bool) (x : spec_float) : bool :=
  match x with
  | S754_nan => false
  | S754_zero s | S754_infinity s | S754_finite s _ _ => Bool.eqb s b
  end.

(** [0 <= x], that is [SFleb (S754_zero false) x]. *)
Definition sf_nonneg (x : spec_float) : bool :=
  match x with
  | S754_nan => false
  | S754_zero _ => true
  | S754_infinity s | S754_finite s _ _ => negb s
  end.

(** [x < 0], that is [SFltb x (S754_zero false)]. *)
Definition sf_neg (x : spec_float) : bool :=
  match x with
  | S754_nan | S754_zero _ => false
  | S754_infinity s | S754_finite s _ _ => s
  end.

Definition sf_is_nan (x : spec_float) : bool :=
  match x with S754_nan => true | _ => false end.

Definition sf_finite_pos (x : spec_float) : bool :=
  match x with S754_finite false _ _ => true | _ => false end.

(** The float [1.0]. *)
Definition sf_one : spec_float := S754_finite false 4503599627370496 (-52).

(** Python's [max(a, b)] on two numbers: [b] when [b > a], else [a]. *)
Definition py_max (a b : float) : float :=
  if PrimFloat.ltb a b then b else a.

(** The fee rules as the specification words them. *)
Definition spec_student_fee (h : float) : float := PrimFloat.mul h 2.
Definition spec_staff_fee (h : float) : float :=
  PrimFloat.mul (py_max 0 (PrimFloat.sub h 1)) 3.

(** A pass as [issue_pass] builds them: a student pass at the student
    rate or a staff pass at the staff rate. *)
Definition pass_well_formed (p : ParkingPass) : bool :=
  match pass_cls p with
  | StudentPass_cls => PrimFloat.Leibniz.eqb (fee_rate p) STUDENT_RATE
  | StaffPass_cls => PrimFloat.Leibniz.eqb (fee_rate p) STAFF_RATE
  | ParkingPass_cls => false
  end.

(** Every pass on record was built by [issue_pass]. *)
Definition passes_well_formed (sys : ParkingSystem) : Prop :=
  forall plate p,
    issued_passes sys !! plate = Some p -> pass_well_formed p = true.

(** The fees that a list of printed lines reports. *)
Fixpoint printed_fees (out : list output) : list float :=
  match out with
  | [] => []
  | PrintExitInfo _ _ _ _ _ _ fee :: rest => fee :: printed_fees rest
  | _ :: rest => printed_fees rest
  end.

(** Whether an operation asks to remove the (clean) plate [p]. *)
Definition op_removes (p : string) (op : lot_op) : bool :=
  match op with
  | OpRemoveVehicle q => String.eqb (clean_plate q) p
  | _ => false
  end.

(** ** Sample values *)

Definition sample_lot : ParkingLot := mkLot "Ostim TechnoPark" 10 ∅.
Definition sample_system : ParkingSystem := mkSystem sample_lot ∅ ∅.
Definition sample_driver : Driver :=
  mkDriver "Ayse" "S1" (mkVehicle "AA11" "car").

(** ** Definitions for the properties of the whole program *)

(** [f] holds of every character of [s]. *)
Fixpoint str_forallb (f : ascii -> bool) (s : string) : bool :=
  match s with
  | EmptyString => true
  | String c s' => f c && str_forallb f s'
  end.

Definition is_lower_letter (c : ascii) : bool :=
  let n := nat_of_ascii c in (97 <=? n)%nat && (n <=? 122)%nat.

Definition is_space (c : ascii) : bool := Ascii.eqb c " "%char.

(** The method that a menu choice calls, with the clock reading of the
    iteration; none for the exit and for an invalid choice. *)
Definition call_of_input (inp : menu_input) (now : datetime) : option call :=
  match inp with
  | Choice1 name driver_id plate v_type =>
      Some (CallRegister name driver_id plate v_type)
  | Choice2 plate pass_type => Some (CallIssuePass plate pass_type now)
  | Choice3 plate => Some (CallPark plate now)
  | Choice4 plate => Some (CallRemove plate now None)
  | Choice5 => Some CallListPasses
  | Choice6 | ChoiceOther => None
  end.


(** What the three dictionaries of a system have to do with each other:
    a driver is registered under the clean, non-empty plate of its
    vehicle and has an identifier; a pass is recorded under the plate of a
    registered driver, who is the driver of the pass; a parked plate is
    clean and has a pass. *)
Definition drivers_ok (sys : ParkingSystem) : Prop :=
  forall k d, registered_drivers sys !! k = Some d ->
    license_plate (vehicle d) = k /\ clean_plate k = k /\ k <> "" /\
    driver_id d <> "".

Definition passes_ok (sys : ParkingSystem) : Prop :=
  forall k p, issued_passes sys !! k = Some p ->
    registered_drivers sys !! k = Some (driver p) /\ fst (pass_id p) = k.

Definition parked_ok (sys : ParkingSystem) : Prop :=
  forall k t, parked_vehicles (parking_lot sys) !! k = Some t ->
    is_Some (issued_passes sys !! k) /\ clean_plate k = k.

Definition system_ok (sys : ParkingSystem) : Prop :=
  drivers_ok sys /\ passes_ok sys /\ parked_ok sys /\
  Z.of_nat (size (parked_vehicles (parking_lot sys)))
    <= lot_capacity (parking_lot sys).

(** The row that [list_active_passes] prints for an item of the pass
    dictionary when the driver of the pass is the registered one. *)
Definition pass_row (sys : ParkingSystem) (item : string * ParkingPass)
  : output :=
  PrintPassRow item.1 item.2 (full_name (driver item.2))
    (is_parked (parking_lot sys) item.1).

(** * Properties *)

(** ** The scenarios of the specification, evaluated *)

Example clean_plate_example : clean_plate "06 bb 66" = "06BB66".
Proof. reflexivity. Qed.

Example staff_within_free_hour :
  calculate_fee (StaffPass_init ("AA11", 0) sample_driver) 0.5
    = Return 0%float.
Proof. reflexivity. Qed.

Example student_three_hours :
  calculate_fee (StudentPass_init ("AA11", 0) sample_driver) 3
    = Return 6%float.
Proof. reflexivity. Qed.

Example staff_ninety_minutes :
  calculate_fee (StaffPass_init ("AA11", 0) sample_driver)
    (hours_of (90 * 60 * 1000000))
    = Return 1.5%float.
Proof. reflexivity. Qed.

Example full_lot_rejects :
  outcome (add_vehicle "BB22" 2
             (state_after (add_vehicle "AA11" 1 (mkLot "P1" 1 ∅))))
    = Raise (Exn FullLotError (MsgLotFull "P1")).
Proof. reflexivity. Qed.

Example never_parked_rejects :
  outcome (remove_vehicle "AA11" sample_lot)
    = Raise (Exn VehicleNotParkedError (MsgNotParked "AA11")).
Proof. reflexivity. Qed.

Example unregistered_plate_gets_no_pass :
  outcome (issue_pass "ZZ99" "student" 0 sample_system)
    = Raise (Exn ParkingError (MsgNotRegistered "ZZ99")).
Proof. reflexivity. Qed.

Example unknown_pass_type_rejected :
  outcome (issue_pass "aa11" "Visitor" 0
             (run_calls [CallRegister "Ayse" "S1" "AA 11" "car"]
                sample_system))
    = Raise (Exn ValueError MsgInvalidPassType).
Proof. reflexivity. Qed.

Example pass_type_in_capitals_accepted :
  printed (issue_pass "aa11" "STAFF" 3
             (run_calls [CallRegister "Ayse" "S1" "AA 11" "car"]
                sample_system))
    = [PrintPassIssued (StaffPass_init ("AA11", 3) sample_driver)].
Proof. reflexivity. Qed.

(** ** Plates *)

Section Plates.

Lemma ascii_upper_idem c : ascii_upper (ascii_upper c) = ascii_upper c.
Proof.
  destruct c as [[|] [|] [|] [|] [|] [|] [|] [|]]; reflexivity.
Qed.

(** Cleaning a cleaned plate changes nothing: the methods clean the
    plate again before they hand it to the lot or to a helper. *)
Lemma clean_plate_idem plate :
  clean_plate (clean_plate plate) = clean_plate plate.
Proof.
  unfold clean_plate.
  induction plate as [|c s IH]; [reflexivity|].
  cbn [str_upper str_remove_spaces].
  destruct (Ascii.eqb (ascii_upper c) " ") eqn:E; [exact IH|].
  cbn [str_upper str_remove_spaces].
  rewrite ascii_upper_idem, E. f_equal. exact IH.
Qed.

End Plates.

(** ** Binary64 rounding keeps the sign *)

Section Rounding.
Variables prec emax : Z.

Lemma shr_1_nonneg r : 0 <= shr_m r -> 0 <= shr_m (shr_1 r).
Proof.
  destruct r as [m r s]; simpl.
  destruct m as [|[p|p|]|[p|p|]]; simpl; lia.
Qed.

Lemma iter_pos_shr_1_nonneg n : forall r,
  0 <= shr_m r -> 0 <= shr_m (SpecFloat.iter_pos shr_1 n r).
Proof.
  induction n as [n IH|n IH|]; intros r Hr; simpl.
  - apply IH, IH, shr_1_nonneg, Hr.
  - apply IH, IH, Hr.
  - apply shr_1_nonneg, Hr.
Qed.

Lemma shr_nonneg r e n : 0 <= shr_m r -> 0 <= shr_m (fst (shr r e n)).
Proof.
  intros Hr. destruct n; simpl; auto using iter_pos_shr_1_nonneg.
Qed.

Lemma shr_fexp_nonneg m e l :
  0 <= m -> 0 <= shr_m (fst (shr_fexp prec emax m e l)).
Proof.
  intros Hm. unfold shr_fexp. apply shr_nonneg.
  destruct l as [|[| |]]; exact Hm.
Qed.

Lemma round_nearest_even_nonneg m l :
  0 <= m -> 0 <= round_nearest_even m l.
Proof.
  intros Hm. destruct l as [|[| |]]; simpl; try lia.
  destruct (Z.even m); lia.
Qed.

(** Rounding a non-negative mantissa under the sign [s] gives a zero, a
    finite number or an infinity of sign [s], never a NaN. *)
Lemma binary_round_aux_signed s m e l :
  0 <= m -> sf_signed s (binary_round_aux prec emax s m e l) = true.
Proof.
  intros Hm. unfold binary_round_aux.
  pose proof (shr_fexp_nonneg m e l Hm) as H1.
  destruct (shr_fexp prec emax m e l) as [r1 e1]; simpl in H1.
  pose proof (shr_fexp_nonneg _ e1 loc_Exact
                (round_nearest_even_nonneg _ (loc_of_shr_record r1) H1))
    as H2.
  destruct (shr_fexp prec emax _ e1 loc_Exact) as [r2 e2]; simpl in H2.
  destruct (shr_m r2) as [|p|p]; simpl.
  - apply Bool.eqb_reflx.
  - destruct (e2 <=? emax - prec); simpl; apply Bool.eqb_reflx.
  - lia.
Qed.

Lemma binary_round_signed s m e :
  sf_signed s (binary_round prec emax s m e) = true.
Proof.
  unfold binary_round.
  destruct (shl_align m e _) as [mz ez].
  apply binary_round_aux_signed. lia.
Qed.

Lemma binary_normalize_signed m e :
  sf_signed (m <? 0) (binary_normalize prec emax m e false) = true.
Proof.
  destruct m as [|p|p]; simpl; auto using binary_round_signed.
Qed.

Lemma binary_normalize_nonneg m e :
  0 <= m -> sf_signed false (binary_normalize prec emax m e false) = true.
Proof.
  intros Hm.
  pose proof (binary_normalize_signed m e) as H.
  replace (m <? 0) with false in H by lia. exact H.
Qed.

Lemma SFltb_zero_signed_true r :
  sf_signed true r = true -> SFltb (S754_zero false) r = false.
Proof. destruct r as [[|]|[|]| |[|] ? ?]; simpl; auto; discriminate. Qed.

Lemma binary_normalize_nonpos m e :
  m <= 0 ->
  SFltb (S754_zero false) (binary_normalize prec emax m e false) = false.
Proof.
  intros Hm. destruct (Z.eq_dec m 0) as [->|Hne]; [reflexivity|].
  apply SFltb_zero_signed_true.
  pose proof (binary_normalize_signed m e) as H.
  replace (m <? 0) with true in H by lia. exact H.
Qed.

(** Division by a positive finite number keeps the sign of the
    dividend. *)
Lemma SFdiv_signed s x y :
  sf_signed s x = true -> sf_finite_pos y = true ->
  sf_signed s (SFdiv prec emax x y) = true.
Proof.
  intros Hx Hy.
  destruct y as [| | |[|] my ey]; try discriminate.
  destruct x as [sx|sx| |sx mx ex]; simpl in *; try discriminate;
    rewrite ?Bool.xorb_false_r; auto.
  destruct (SFdiv_core_binary prec emax (Z.pos mx) ex (Z.pos my) ey)
    as [[mz ez] lz] eqn:E.
  apply Bool.eqb_prop in Hx. subst s.
  apply binary_round_aux_signed.
  unfold SFdiv_core_binary in E.
  set (m' := match _ with Z.pos _ => _ | Z0 => _ | Z.neg _ => _ end) in E.
  assert (Hm' : 0 <= m').
  { subst m'. destruct (_ - _ - _); try lia.
    apply Z.shiftl_nonneg. lia. }
  pose proof (Z_div_mod m' (Z.pos my) ltac:(lia)) as D.
  destruct (Z.div_eucl m' (Z.pos my)) as [q r]. inversion E; subst.
  nia.
Qed.

(** Multiplication by a positive finite number keeps [0 <= x]. *)
Lemma SFmul_nonneg x y :
  sf_nonneg x = true -> sf_finite_pos y = true ->
  sf_nonneg (SFmul prec emax x y) = true.
Proof.
  intros Hx Hy.
  destruct y as [| | |[|] my ey]; try discriminate.
  destruct x as [sx|sx| |sx mx ex]; simpl in *; try discriminate; auto.
  - rewrite Bool.xorb_false_r. exact Hx.
  - pose proof (binary_round_aux_signed (xorb sx false)
                  (Z.pos (mx * my)) (ex + ey) loc_Exact ltac:(lia)) as H.
    rewrite Bool.xorb_false_r in *. destruct sx; try discriminate.
    destruct (binary_round_aux _ _ _ _ _ _) as [[|]|[|]| |[|] ? ?];
      simpl in *; auto; discriminate.
Qed.

Lemma SFldexp_signed s x e :
  sf_signed s x = true -> sf_signed s (SFldexp prec emax x e) = true.
Proof.
  destruct x as [sx|sx| |sx mx ex]; simpl; auto.
  intros Hx. apply Bool.eqb_prop in Hx. subst s.
  apply binary_round_signed.
Qed.

Lemma SFopp_signed s x :
  sf_signed s x = true -> sf_signed (negb s) (SFopp x) = true.
Proof.
  destruct x as [sx|sx| |sx mx ex]; simpl; auto;
    intros Hx; apply Bool.eqb_prop in Hx; subst s; apply Bool.eqb_reflx.
Qed.

End Rounding.

(** ** Comparisons with zero and with one *)

Lemma sf_signed_false_nonneg x : sf_signed false x = true -> sf_nonneg x = true.
Proof. destruct x as [[|]|[|]| |[|] ? ?]; simpl; auto. Qed.

Lemma sf_nonneg_not_neg x : sf_nonneg x = true -> sf_neg x = false.
Proof. destruct x as [[|]|[|]| |[|] ? ?]; simpl; auto. Qed.

Lemma sf_nonneg_not_nan x : sf_nonneg x = true -> sf_is_nan x = false.
Proof. destruct x; simpl; auto; discriminate. Qed.

Lemma sf_not_neg_nonneg x :
  sf_is_nan x = false -> sf_neg x = false -> sf_nonneg x = true.
Proof. destruct x as [[|]|[|]| |[|] ? ?]; simpl; auto. Qed.

(** A float of positive sign that is not above zero is [+0.0]. *)
Lemma sf_signed_false_not_pos x :
  sf_signed false x = true -> SFltb (S754_zero false) x = false ->
  x = S754_zero false.
Proof. destruct x as [[|]|[|]| |[|] ? ?]; simpl; auto; discriminate. Qed.

Lemma SFleb_zero x : SFleb (S754_zero false) x = sf_nonneg x.
Proof. destruct x as [[|]|[|]| |[|] ? ?]; reflexivity. Qed.

Lemma SFltb_zero x : SFltb x (S754_zero false) = sf_neg x.
Proof. destruct x as [[|]|[|]| |[|] ? ?]; reflexivity. Qed.

Lemma Prim2SF_zero : Prim2SF 0 = S754_zero false.
Proof. reflexivity. Qed.

Lemma Prim2SF_one : Prim2SF 1 = sf_one.
Proof. reflexivity. Qed.

Lemma float_leb_zero h : PrimFloat.leb 0 h = sf_nonneg (Prim2SF h).
Proof. rewrite FloatAxioms.leb_spec. apply SFleb_zero. Qed.

Lemma float_ltb_zero h : PrimFloat.ltb h 0 = sf_neg (Prim2SF h).
Proof. rewrite FloatAxioms.ltb_spec. apply SFltb_zero. Qed.

Lemma digits2_pos_bounds m :
  2 ^ (Z.pos (digits2_pos m) - 1) <= Z.pos m < 2 ^ Z.pos (digits2_pos m).
Proof.
  induction m as [m IH|m IH|]; simpl digits2_pos;
    rewrite ?Pos2Z.inj_succ, ?Z.pow_succ_r by lia.
  - replace (Z.succ (Z.pos (digits2_pos m)) - 1)
      with (Z.succ (Z.pos (digits2_pos m) - 1)) by lia.
    rewrite Z.pow_succ_r by lia. lia.
  - replace (Z.succ (Z.pos (digits2_pos m)) - 1)
      with (Z.succ (Z.pos (digits2_pos m) - 1)) by lia.
    rewrite Z.pow_succ_r by lia. lia.
  - simpl. lia.
Qed.

Lemma iter_xO_value m d : Z.pos (Pos.iter xO m d) = Z.pos m * 2 ^ Z.pos d.
Proof.
  change (Pos.iter xO m d) with (shift_pos d m).
  rewrite shift_pos_correct.
  change (Zpower_pos 2 d) with (2 ^ Z.pos d). apply Z.mul_comm.
Qed.

Lemma shl_align_value mx ex ez :
  ez <= ex -> Z.pos (fst (shl_align mx ex ez)) = Z.pos mx * 2 ^ (ex - ez).
Proof.
  intros H. unfold shl_align.
  destruct (ez - ex) as [|p|p] eqn:E; simpl.
  - replace (ex - ez) with 0 by lia. lia.
  - lia.
  - rewrite iter_xO_value. f_equal. f_equal. lia.
Qed.

(** The mantissa of a binary64 number has at most 53 digits, and exactly
    53 when its exponent is that of a normal number. *)
Lemma canonical_digits (m : positive) (e : Z) :
  bounded prec emax m e = true ->
  Z.pos (digits2_pos m) <= 53 /\ (-52 < e -> Z.pos (digits2_pos m) = 53).
Proof.
  intros Hv.
  unfold bounded, canonical_mantissa, fexp, SpecFloat.emin, prec, emax in Hv.
  apply andb_prop in Hv as [Hc He].
  apply Z.eqb_eq in Hc. lia.
Qed.

Lemma below_one (m : positive) (e : Z) :
  Z.pos (digits2_pos m) <= 53 -> e < -52 ->
  Z.pos m - 4503599627370496 * 2 ^ (-52 - e) <= 0.
Proof.
  intros Hd He.
  pose proof (digits2_pos_bounds m) as [_ Hhi].
  assert (2 ^ Z.pos (digits2_pos m) <= 2 ^ 53)
    by (apply Z.pow_le_mono_r; lia).
  assert (2 ^ 1 <= 2 ^ (-52 - e)) by (apply Z.pow_le_mono_r; lia).
  change (2 ^ 53) with 9007199254740992 in *.
  change (2 ^ 1) with 2 in *. lia.
Qed.

Lemma above_one (m : positive) (e : Z) :
  Z.pos (digits2_pos m) = 53 -> -52 < e ->
  0 <= Z.pos m * 2 ^ (e + 52) - 4503599627370496.
Proof.
  intros Hd He.
  pose proof (digits2_pos_bounds m) as [Hlo _].
  assert (2 ^ 1 <= 2 ^ (e + 52)) by (apply Z.pow_le_mono_r; lia).
  replace (Z.pos (digits2_pos m) - 1) with 52 in Hlo by lia.
  change (2 ^ 52) with 4503599627370496 in *.
  change (2 ^ 1) with 2 in *. nia.
Qed.

Section SubOne.
(** The mantissa [c] of the float [1.0] stays a variable in this
    section, so that comparing a mantissa with it is not unfolded bit by
    bit. *)
Variable c : positive.
Hypothesis c_value : Z.pos c = 4503599627370496.

Let one := S754_finite false c (-52).

Lemma SFsub_one_sign_gen x :
  valid_binary x = true ->
  if SFleb x one
  then SFltb (S754_zero false) (SF64sub x one) = false
  else sf_is_nan x = true \/ sf_signed false (SF64sub x one) = true.
Proof.
  intros Hv.
  destruct x as [[|]|[|]| |s m e].
  1-5: (cbn; auto).
  unfold SF64sub, SFsub, one.
  set (ez := Z.min e (-52)).
  rewrite !shl_align_value by (subst ez; lia).
  rewrite c_value.
  destruct s.
  - (* a negative number minus one *)
    change (SFleb _ _) with true. cbv iota.
    apply binary_normalize_nonpos. unfold cond_Zopp.
    pose proof (Z.pow_pos_nonneg 2 (e - ez) ltac:(lia) ltac:(subst ez; lia)).
    pose proof (Z.pow_pos_nonneg 2 (-52 - ez) ltac:(lia) ltac:(subst ez; lia)).
    nia.
  - cbn [valid_binary] in Hv.
    apply canonical_digits in Hv as [Hle Heq53].
    unfold cond_Zopp, SFleb, SFcompare.
    destruct (Z.compare_spec e (-52)) as [Heq|Hlt|Hgt]; cbv iota.
    + (* the exponent of one *)
      assert (Hez : ez = -52) by (subst ez; lia).
      rewrite Hez, Heq. change (-52 - -52) with 0.
      rewrite Z.pow_0_r, !Z.mul_1_r.
      change (PosDef.Pos.compare_cont Eq m c) with (Pos.compare m c).
      destruct (Pos.compare_spec m c) as [H|H|H]; cbv iota.
      * apply binary_normalize_nonpos. lia.
      * apply binary_normalize_nonpos. lia.
      * right. apply binary_normalize_nonneg. lia.
    + (* below one *)
      apply binary_normalize_nonpos.
      replace ez with e by (subst ez; lia).
      rewrite Z.sub_diag, Z.pow_0_r, Z.mul_1_r.
      apply below_one; assumption.
    + (* above one *)
      right. apply binary_normalize_nonneg.
      replace ez with (-52) by (subst ez; lia).
      change (-52 - -52) with 0. rewrite Z.pow_0_r, Z.mul_1_r.
      replace (e - -52) with (e + 52) by lia.
      apply above_one; auto.
Qed.
End SubOne.

(** What [x - 1.0] is, from how [x] compares with [1.0]: not above zero
    when [x <= 1.0]; of positive sign when [x] is a number above [1.0]. *)
Lemma SFsub_one_sign x :
  valid_binary x = true ->
  if SFleb x sf_one
  then SFltb (S754_zero false) (SF64sub x sf_one) = false
  else sf_is_nan x = true \/ sf_signed false (SF64sub x sf_one) = true.
Proof. exact (SFsub_one_sign_gen 4503599627370496 eq_refl x). Qed.

Lemma float_sub_one_le h :
  PrimFloat.leb h 1 = true -> PrimFloat.ltb 0 (PrimFloat.sub h 1) = false.
Proof.
  rewrite FloatAxioms.leb_spec, FloatAxioms.ltb_spec, FloatAxioms.sub_spec.
  rewrite Prim2SF_one, Prim2SF_zero. intros Hle.
  pose proof (SFsub_one_sign (Prim2SF h) (Prim2SF_valid h)) as H.
  rewrite Hle in H. exact H.
Qed.

Lemma float_sub_one_gt h :
  PrimFloat.leb h 1 = false -> sf_is_nan (Prim2SF h) = false ->
  sf_signed false (Prim2SF (PrimFloat.sub h 1)) = true.
Proof.
  rewrite FloatAxioms.leb_spec, FloatAxioms.sub_spec, Prim2SF_one.
  intros Hle Hnan.
  pose proof (SFsub_one_sign (Prim2SF h) (Prim2SF_valid h)) as H.
  rewrite Hle in H. destruct H as [H|H]; [congruence|exact H].
Qed.

Lemma float_mul_nonneg h r :
  sf_nonneg (Prim2SF h) = true -> sf_finite_pos (Prim2SF r) = true ->
  PrimFloat.leb 0 (PrimFloat.mul h r) = true.
Proof.
  intros Hh Hr. rewrite float_leb_zero, FloatAxioms.mul_spec.
  apply SFmul_nonneg; assumption.
Qed.

(** ** The hours of a duration *)

Lemma SF2Prim_signed s x :
  sf_signed s x = true -> sf_signed s (Prim2SF (SF2Prim x)) = true.
Proof.
  destruct x as [[|]|[|]| |sx m e]; try (intros H; exact H).
  intros H. apply Bool.eqb_prop in H. subst s.
  unfold SF2Prim, Z.ldexp.
  set (f := ldshiftexp _ _).
  assert (Hf : sf_signed false (Prim2SF f) = true).
  { subst f. rewrite ldshiftexp_spec. apply SFldexp_signed.
    rewrite of_uint63_spec.
    apply binary_normalize_nonneg. apply Uint63.to_Z_bounded. }
  destruct sx; [|exact Hf].
  rewrite FloatAxioms.opp_spec. exact (SFopp_signed false _ Hf).
Qed.

Lemma Z2SF_signed d : sf_signed (d <? 0) (Z2SF d) = true.
Proof. destruct d; reflexivity. Qed.

Lemma total_seconds_signed d :
  sf_signed (d <? 0) (Prim2SF (total_seconds d)) = true.
Proof.
  unfold total_seconds, int_true_divide, SF64div.
  apply SF2Prim_signed, SFdiv_signed; [apply Z2SF_signed | reflexivity].
Qed.

(** The hours of a duration are a number (not a NaN) with the sign of
    the duration. *)
Lemma hours_of_signed d : sf_signed (d <? 0) (Prim2SF (hours_of d)) = true.
Proof.
  unfold hours_of. rewrite FloatAxioms.div_spec.
  apply SFdiv_signed; [apply total_seconds_signed | reflexivity].
Qed.

(** ** Fees *)

Lemma nonneg_hours_accepted h :
  PrimFloat.leb 0 h = true -> PrimFloat.ltb h 0 = false.
Proof.
  rewrite float_leb_zero, float_ltb_zero. apply sf_nonneg_not_neg.
Qed.

(** The charge of a staff pass above the free hour is the specification's
    [max(0, h - 1) * 3.0]: the hours above one are never below zero, and
    when they are zero both sides are [0.0 * 3.0]. *)
Lemma staff_charge_is_max h :
  PrimFloat.leb h 1 = false -> sf_is_nan (Prim2SF h) = false ->
  PrimFloat.mul (PrimFloat.sub h 1) STAFF_RATE = spec_staff_fee h.
Proof.
  intros Hgt Hnan. unfold spec_staff_fee, py_max, STAFF_RATE.
  pose proof (float_sub_one_gt h Hgt Hnan) as Hs.
  destruct (PrimFloat.ltb 0 (PrimFloat.sub h 1)) eqn:E; [reflexivity|].
  rewrite FloatAxioms.ltb_spec, Prim2SF_zero in E.
  pose proof (sf_signed_false_not_pos _ Hs E) as Hz.
  rewrite <- Prim2SF_zero in Hz. apply Prim2SF_inj in Hz.
  rewrite Hz. reflexivity.
Qed.

(** The fee of a well-formed pass, when one is returned for hours that
    are a number, is not below zero. *)
Lemma calculate_fee_nonneg p h fee :
  pass_well_formed p = true -> sf_is_nan (Prim2SF h) = false ->
  calculate_fee p h = Return fee -> PrimFloat.leb 0 fee = true.
Proof.
  unfold pass_well_formed, calculate_fee.
  intros Hwf Hnan.
  destruct (pass_cls p); [discriminate| |];
    apply FloatAxioms.Leibniz.eqb_spec in Hwf;
    unfold StudentPass_calculate_fee, ParkingPass_calculate_fee,
      StaffPass_calculate_fee; rewrite Hwf;
    destruct (PrimFloat.ltb h 0) eqn:Hneg; try discriminate;
    rewrite float_ltb_zero in Hneg;
    pose proof (sf_not_neg_nonneg _ Hnan Hneg) as Hpos.
  - intros [= <-]. apply float_mul_nonneg; [exact Hpos|reflexivity].
  - destruct (PrimFloat.leb h 1) eqn:Hle; intros [= <-]; [reflexivity|].
    apply float_mul_nonneg; [|reflexivity].
    apply sf_signed_false_nonneg, float_sub_one_gt; assumption.
Qed.

(** Hours that are not below zero are charged: no exception. *)
Lemma calculate_fee_returns p h :
  PrimFloat.ltb h 0 = false -> exists fee, calculate_fee p h = Return fee.
Proof.
  intros Hneg. unfold calculate_fee, StudentPass_calculate_fee,
    ParkingPass_calculate_fee, StaffPass_calculate_fee.
  rewrite Hneg. destruct (pass_cls p); eauto.
  destruct (PrimFloat.leb h 1); eauto.
Qed.

(** C1. For every hours value [h >= 0], [StudentPass.calculate_fee(h)]
    returns [h * 2.0] and [StaffPass.calculate_fee(h)] returns
    [max(0, h - 1) * 3.0]. *)
Theorem C1_fee_formulas (pass_id : string * datetime) (driver : Driver)
    (h : float) :
  PrimFloat.leb 0 h = true ->
  calculate_fee (StudentPass_init pass_id driver) h
    = Return (spec_student_fee h) /\
  calculate_fee (StaffPass_init pass_id driver) h
    = Return (spec_staff_fee h).
Proof.
  intros Hh.
  pose proof (nonneg_hours_accepted h Hh) as Hneg.
  unfold calculate_fee, StudentPass_calculate_fee, ParkingPass_calculate_fee,
    StaffPass_calculate_fee. cbn [pass_cls StudentPass_init StaffPass_init
    fee_rate]. rewrite Hneg. split; [reflexivity|].
  destruct (PrimFloat.leb h 1) eqn:Hle.
  - unfold spec_staff_fee, py_max.
    rewrite (float_sub_one_le h Hle). reflexivity.
  - f_equal. apply staff_charge_is_max; [exact Hle|].
    apply sf_nonneg_not_nan. rewrite <- float_leb_zero. exact Hh.
Qed.

Lemma C1_fee_formulas_witness :
  calculate_fee (StudentPass_init ("AA11", 0) sample_driver) 3
    = Return 6%float /\
  calculate_fee (StaffPass_init ("AA11", 0) sample_driver) 3
    = Return 6%float.
Proof.
  exact (C1_fee_formulas ("AA11", 0) sample_driver 3 eq_refl).
Defined.

(** C6. For every hours value [h < 0], both [StudentPass.calculate_fee(h)]
    and [StaffPass.calculate_fee(h)] fail with a validation error and
    return no fee. *)
Theorem C6_negative_hours_rejected (pass_id : string * datetime)
    (driver : Driver) (h : float) :
  PrimFloat.ltb h 0 = true ->
  calculate_fee (StudentPass_init pass_id driver) h
    = Raise (Exn ValueError MsgNegativeHours) /\
  calculate_fee (StaffPass_init pass_id driver) h
    = Raise (Exn ValueError MsgNegativeHours).
Proof.
  intros Hneg.
  unfold calculate_fee, StudentPass_calculate_fee, ParkingPass_calculate_fee,
    StaffPass_calculate_fee. cbn [pass_cls StudentPass_init StaffPass_init].
  rewrite Hneg. split; reflexivity.
Qed.

Lemma C6_negative_hours_rejected_witness :
  calculate_fee (StudentPass_init ("AA11", 0) sample_driver) (-0.25)
    = Raise (Exn ValueError MsgNegativeHours) /\
  calculate_fee (StaffPass_init ("AA11", 0) sample_driver) (-0.25)
    = Raise (Exn ValueError MsgNegativeHours).
Proof.
  exact (C6_negative_hours_rejected ("AA11", 0) sample_driver (-0.25) eq_refl).
Defined.

(** ** ParkingLot *)

(** Unfolds the monad in a goal about one call. *)
Ltac run_method :=
  unfold mbind, M_bind, mret, M_ret, gets, modify, raise, print, of_result,
    try_except, on_lot, outcome, state_after, printed; cbn.

Lemma is_parked_true lot plate :
  is_parked lot plate = true <->
  exists entry, parked_vehicles lot !! clean_plate plate = Some entry.
Proof. unfold is_parked. rewrite bool_decide_eq_true. reflexivity. Qed.

Lemma is_parked_false lot plate :
  is_parked lot plate = false <->
  parked_vehicles lot !! clean_plate plate = None.
Proof.
  unfold is_parked. rewrite bool_decide_eq_false, <- eq_None_not_Some.
  reflexivity.
Qed.

Lemma is_parked_clean lot plate :
  is_parked lot (clean_plate plate) = is_parked lot plate.
Proof. unfold is_parked. rewrite clean_plate_idem. reflexivity. Qed.

Lemma is_full_spec lot :
  is_full lot = true <->
  lot_capacity lot <= Z.of_nat (size (parked_vehicles lot)).
Proof. unfold is_full. apply Z.leb_le. Qed.

Lemma add_vehicle_full plate now lot :
  is_full lot = true ->
  add_vehicle plate now lot
    = (Raise (Exn FullLotError (MsgLotFull (lot_name lot))), lot, []).
Proof. intros H. unfold add_vehicle. run_method. rewrite H. reflexivity. Qed.

Lemma add_vehicle_duplicate plate now lot :
  is_full lot = false -> is_parked lot plate = true ->
  add_vehicle plate now lot
    = (Raise (Exn ParkingError (MsgAlreadyParked (clean_plate plate))),
       lot, []).
Proof.
  intros Hf Hp. unfold add_vehicle. run_method.
  rewrite Hf, is_parked_clean, Hp. reflexivity.
Qed.

Lemma add_vehicle_ok plate now lot :
  is_full lot = false -> is_parked lot plate = false ->
  add_vehicle plate now lot
    = (Return tt, set_parked (insert (clean_plate plate) now) lot,
       [PrintParked (clean_plate plate)]).
Proof.
  intros Hf Hp. unfold add_vehicle. run_method.
  rewrite Hf, is_parked_clean, Hp. reflexivity.
Qed.

Lemma remove_vehicle_absent plate lot :
  is_parked lot plate = false ->
  remove_vehicle plate lot
    = (Raise (Exn VehicleNotParkedError (MsgNotParked (clean_plate plate))),
       lot, []).
Proof.
  intros Hp. unfold remove_vehicle. run_method.
  rewrite is_parked_clean, Hp. reflexivity.
Qed.

Lemma remove_vehicle_present plate lot entry :
  parked_vehicles lot !! clean_plate plate = Some entry ->
  remove_vehicle plate lot
    = (Return entry, set_parked (delete (clean_plate plate)) lot,
       [PrintRemoved (clean_plate plate)]).
Proof.
  intros He.
  assert (Hp : is_parked lot plate = true) by (apply is_parked_true; eauto).
  unfold remove_vehicle. run_method.
  rewrite is_parked_clean, Hp. cbn. rewrite He. reflexivity.
Qed.

(** Every operation leaves the capacity and the name as they are. *)
Lemma do_lot_op_capacity op lot :
  lot_capacity (state_after (do_lot_op op lot)) = lot_capacity lot.
Proof.
  destruct op as [plate now|plate| |plate|]; try reflexivity.
  - cbn [do_lot_op]. destruct (is_full lot) eqn:Hf.
    { rewrite (add_vehicle_full _ _ _ Hf). reflexivity. }
    destruct (is_parked lot plate) eqn:Hp.
    + rewrite (add_vehicle_duplicate _ _ _ Hf Hp). reflexivity.
    + rewrite (add_vehicle_ok _ _ _ Hf Hp). reflexivity.
  - cbn [do_lot_op]. unfold mbind, M_bind.
    destruct (is_parked lot plate) eqn:Hp.
    + apply is_parked_true in Hp as [entry He].
      rewrite (remove_vehicle_present _ _ _ He). reflexivity.
    + rewrite (remove_vehicle_absent _ _ Hp). reflexivity.
Qed.

(** The number of parked vehicles stays within the capacity across one
    operation. *)
Lemma do_lot_op_within_capacity op lot :
  Z.of_nat (size (parked_vehicles lot)) <= lot_capacity lot ->
  Z.of_nat (size (parked_vehicles (state_after (do_lot_op op lot))))
    <= lot_capacity lot.
Proof.
  intros Hinv.
  destruct op as [plate now|plate| |plate|]; try exact Hinv.
  - cbn [do_lot_op]. destruct (is_full lot) eqn:Hf.
    { rewrite (add_vehicle_full _ _ _ Hf). exact Hinv. }
    destruct (is_parked lot plate) eqn:Hp.
    + rewrite (add_vehicle_duplicate _ _ _ Hf Hp). exact Hinv.
    + rewrite (add_vehicle_ok _ _ _ Hf Hp). cbn.
      apply is_parked_false in Hp. rewrite map_size_insert_None by exact Hp.
      unfold is_full in Hf. lia.
  - cbn [do_lot_op]. unfold mbind, M_bind.
    destruct (is_parked lot plate) eqn:Hp.
    + apply is_parked_true in Hp as [entry He].
      rewrite (remove_vehicle_present _ _ _ He). cbn.
      rewrite map_size_delete_Some by eauto. lia.
    + rewrite (remove_vehicle_absent _ _ Hp). exact Hinv.
Qed.

Lemma run_lot_ops_within_capacity ops : forall lot,
  Z.of_nat (size (parked_vehicles lot)) <= lot_capacity lot ->
  Z.of_nat (size (parked_vehicles (run_lot_ops ops lot)))
    <= lot_capacity (run_lot_ops ops lot).
Proof.
  unfold run_lot_ops.
  induction ops as [|op ops IH]; intros lot Hinv; [exact Hinv|].
  cbn [foldl]. apply IH.
  rewrite do_lot_op_capacity. apply do_lot_op_within_capacity, Hinv.
Qed.

Lemma ParkingLot_init_inv name capacity lot :
  ParkingLot_init name capacity = Return lot ->
  0 < capacity /\ lot = mkLot name capacity ∅.
Proof.
  unfold ParkingLot_init, ParkingLot_validate_capacity.
  destruct (capacity <=? 0) eqn:E; [discriminate|].
  intros [= <-]. split; [lia|reflexivity].
Qed.

(** An entry stays as recorded across every operation that does not
    remove its plate. *)
Lemma do_lot_op_keeps_entry op lot p entry :
  parked_vehicles lot !! p = Some entry -> op_removes p op = false ->
  parked_vehicles (state_after (do_lot_op op lot)) !! p = Some entry.
Proof.
  intros He Hop.
  destruct op as [plate now|plate| |plate|]; try exact He.
  - cbn [do_lot_op]. destruct (is_full lot) eqn:Hf.
    { rewrite (add_vehicle_full _ _ _ Hf). exact He. }
    destruct (is_parked lot plate) eqn:Hp.
    + rewrite (add_vehicle_duplicate _ _ _ Hf Hp). exact He.
    + rewrite (add_vehicle_ok _ _ _ Hf Hp). cbn.
      apply is_parked_false in Hp.
      rewrite lookup_insert_ne by congruence. exact He.
  - cbn [do_lot_op op_removes] in *. unfold mbind, M_bind.
    apply String.eqb_neq in Hop.
    destruct (is_parked lot plate) eqn:Hp.
    + apply is_parked_true in Hp as [entry' He'].
      rewrite (remove_vehicle_present _ _ _ He'). cbn.
      rewrite lookup_delete_ne by exact Hop. exact He.
    + rewrite (remove_vehicle_absent _ _ Hp). exact He.
Qed.

Lemma run_lot_ops_keeps_entry ops p entry : forall lot,
  parked_vehicles lot !! p = Some entry ->
  forallb (fun op => negb (op_removes p op)) ops = true ->
  parked_vehicles (run_lot_ops ops lot) !! p = Some entry.
Proof.
  unfold run_lot_ops.
  induction ops as [|op ops IH]; intros lot He Hops; [exact He|].
  cbn [forallb foldl] in *. apply andb_prop in Hops as [Hop Hops].
  apply negb_true_iff in Hop.
  apply IH; [|exact Hops]. apply do_lot_op_keeps_entry; assumption.
Qed.

(** C4. [ParkingLot.add_vehicle(plate)] fails with [FullLotError] whenever
    the occupied count is at least the capacity; fails if the plate is
    already parked, with the duplicate-park error when the lot is not
    full; and otherwise records the current timestamp as the entry time of
    the plate. *)
Theorem C4_add_vehicle (lot : ParkingLot) (plate : string) (now : datetime) :
  let p := clean_plate plate in
  let occupied := Z.of_nat (size (parked_vehicles lot)) in
  (lot_capacity lot <= occupied ->
   add_vehicle plate now lot
     = (Raise (Exn FullLotError (MsgLotFull (lot_name lot))), lot, [])) /\
  (is_parked lot plate = true ->
   is_Raise (outcome (add_vehicle plate now lot)) = true /\
   state_after (add_vehicle plate now lot) = lot /\
   (occupied < lot_capacity lot ->
    add_vehicle plate now lot
      = (Raise (Exn ParkingError (MsgAlreadyParked p)), lot, []))) /\
  (occupied < lot_capacity lot -> is_parked lot plate = false ->
   add_vehicle plate now lot
     = (Return tt, set_parked (insert p now) lot, [PrintParked p]) /\
   parked_vehicles (state_after (add_vehicle plate now lot)) !! p
     = Some now).
Proof.
  intros p occupied. subst p occupied.
  split; [|split].
  - intros Hfull. apply add_vehicle_full, is_full_spec, Hfull.
  - intros Hp. destruct (is_full lot) eqn:Hf.
    + rewrite (add_vehicle_full _ _ _ Hf). repeat split.
      apply is_full_spec in Hf. lia.
    + rewrite (add_vehicle_duplicate _ _ _ Hf Hp). repeat split.
  - intros Hroom Hp.
    assert (Hf : is_full lot = false) by (unfold is_full; lia).
    rewrite (add_vehicle_ok _ _ _ Hf Hp). split; [reflexivity|].
    cbn. apply lookup_insert_eq.
Qed.

(** C5. [ParkingLot.remove_vehicle(plate)] fails with
    [VehicleNotParkedError] for every plate that is not in the lot, and
    otherwise removes exactly that plate and returns the entry timestamp
    that was recorded for it when it was added. *)
Theorem C5_remove_vehicle (lot : ParkingLot) (plate : string) :
  let p := clean_plate plate in
  (is_parked lot plate = false ->
   remove_vehicle plate lot
     = (Raise (Exn VehicleNotParkedError (MsgNotParked p)), lot, [])) /\
  (forall entry, parked_vehicles lot !! p = Some entry ->
   remove_vehicle plate lot
     = (Return entry, set_parked (delete p) lot, [PrintRemoved p]) /\
   is_parked (set_parked (delete p) lot) plate = false /\
   forall q, q <> p ->
     parked_vehicles (set_parked (delete p) lot) !! q
       = parked_vehicles lot !! q) /\
  (forall now ops,
   outcome (add_vehicle plate now lot) = Return tt ->
   forallb (fun op => negb (op_removes p op)) ops = true ->
   outcome (remove_vehicle plate
              (run_lot_ops ops (state_after (add_vehicle plate now lot))))
     = Return now).
Proof.
  intros p. subst p. split; [|split].
  - apply remove_vehicle_absent.
  - intros entry He. split; [|split].
    + apply remove_vehicle_present, He.
    + apply is_parked_false. cbn. apply lookup_delete_eq.
    + intros q Hq. cbn. apply lookup_delete_ne. congruence.
  - intros now ops Hadd Hops.
    assert (Hrec : parked_vehicles (state_after (add_vehicle plate now lot))
                     !! clean_plate plate = Some now).
    { destruct (is_full lot) eqn:Hf.
      { rewrite (add_vehicle_full _ _ _ Hf) in Hadd. discriminate. }
      destruct (is_parked lot plate) eqn:Hp.
      { rewrite (add_vehicle_duplicate _ _ _ Hf Hp) in Hadd. discriminate. }
      rewrite (add_vehicle_ok _ _ _ Hf Hp). cbn. apply lookup_insert_eq. }
    rewrite (remove_vehicle_present _ _ now); [reflexivity|].
    apply run_lot_ops_keeps_entry; assumption.
Qed.

(** C7. For every [ParkingLot] and every sequence of operations
    ([add_vehicle], [remove_vehicle], [is_full], [is_parked],
    [get_parked_plates]), the number of parked vehicles never exceeds the
    capacity of the lot. *)
Theorem C7_size_within_capacity (name : string) (capacity : Z)
    (lot : ParkingLot) (ops : list lot_op) :
  ParkingLot_init name capacity = Return lot ->
  Z.of_nat (size (parked_vehicles (run_lot_ops ops lot)))
    <= lot_capacity (run_lot_ops ops lot).
Proof.
  intros Hinit. apply ParkingLot_init_inv in Hinit as [Hcap ->].
  apply run_lot_ops_within_capacity. cbn.
  rewrite map_size_empty. lia.
Qed.

Lemma C7_size_within_capacity_witness :
  let ops := [OpAddVehicle "aa 11" 10; OpIsFull; OpAddVehicle "BB22" 20;
              OpGetParkedPlates; OpRemoveVehicle "AA11"; OpIsParked "AA11";
              OpAddVehicle "BB22" 30] in
  Z.of_nat (size (parked_vehicles (run_lot_ops ops (mkLot "P1" 1 ∅))))
    <= lot_capacity (run_lot_ops ops (mkLot "P1" 1 ∅)).
Proof.
  exact (C7_size_within_capacity "P1" 1 (mkLot "P1" 1 ∅) _ eq_refl).
Defined.

(** C10. For every capacity [<= 0], constructing a [ParkingLot] (and
    therefore a [ParkingSystem]) fails with a validation error, so every
    lot that was constructed has a strictly positive capacity. *)
Theorem C10_capacity_must_be_positive (name : string) (capacity : Z) :
  (capacity <= 0 ->
   ParkingLot_init name capacity = Raise (Exn ValueError MsgCapacity) /\
   ParkingSystem_init name capacity = Raise (Exn ValueError MsgCapacity)) /\
  (forall lot, ParkingLot_init name capacity = Return lot ->
   0 < lot_capacity lot) /\
  (forall sys, ParkingSystem_init name capacity = Return sys ->
   0 < lot_capacity (parking_lot sys)).
Proof.
  unfold ParkingSystem_init, ParkingLot_init, ParkingLot_validate_capacity.
  destruct (Z.leb_spec capacity 0) as [Hle|Hgt]; (split; [|split]).
  - auto.
  - discriminate.
  - discriminate.
  - lia.
  - intros lot [= <-]. exact Hgt.
  - intros sys [= <-]. exact Hgt.
Qed.

(** ** ParkingSystem: registration and passes *)

Lemma get_driver_by_plate_spec plate sys :
  _get_driver_by_plate plate sys
    = match registered_drivers sys !! clean_plate plate with
      | Some d => (Return d, sys, [])
      | None =>
          (Raise (Exn ParkingError (MsgNotRegistered (clean_plate plate))),
           sys, [])
      end.
Proof.
  unfold _get_driver_by_plate. run_method.
  destruct (registered_drivers sys !! clean_plate plate); reflexivity.
Qed.

Lemma register_duplicate name driver_id plate v_type sys :
  is_Some (registered_drivers sys !! clean_plate plate) ->
  register_driver_and_vehicle name driver_id plate v_type sys
    = (Raise (Exn DuplicatePlateError
                (MsgPlateRegistered (clean_plate plate))), sys, []).
Proof.
  intros H. unfold register_driver_and_vehicle. run_method.
  rewrite (bool_decide_eq_true_2 _ H). reflexivity.
Qed.

(** What a registration does to a system in which the plate is new. *)
Lemma register_new name driver_id plate v_type sys :
  registered_drivers sys !! clean_plate plate = None ->
  register_driver_and_vehicle name driver_id plate v_type sys
    = if String.eqb (clean_plate plate) ""
      then (Raise (Exn ValueError MsgEmptyPlate), sys, [])
      else if String.eqb driver_id ""
      then (Raise (Exn ValueError MsgEmptyId), sys, [])
      else
        let d := mkDriver name driver_id
                   (mkVehicle (clean_plate plate) v_type) in
        (Return tt, set_drivers (insert (clean_plate plate) d) sys,
         [PrintRegistered d]).
Proof.
  intros H. unfold register_driver_and_vehicle. run_method.
  rewrite bool_decide_eq_false_2 by (rewrite H; apply is_Some_None).
  unfold Vehicle_init, Vehicle_validate_plate, Driver_init,
    Driver_validate_id.
  destruct (String.eqb (clean_plate plate) ""); [reflexivity|].
  destruct (String.eqb driver_id ""); [reflexivity|].
  rewrite clean_plate_idem. reflexivity.
Qed.

Lemma register_success name driver_id plate v_type sys :
  outcome (register_driver_and_vehicle name driver_id plate v_type sys)
    = Return tt ->
  registered_drivers sys !! clean_plate plate = None /\
  register_driver_and_vehicle name driver_id plate v_type sys
    = (Return tt,
       set_drivers
         (insert (clean_plate plate)
            (mkDriver name driver_id (mkVehicle (clean_plate plate) v_type)))
         sys,
       [PrintRegistered
          (mkDriver name driver_id (mkVehicle (clean_plate plate) v_type))]).
Proof.
  destruct (registered_drivers sys !! clean_plate plate) as [d|] eqn:E.
  { rewrite register_duplicate by eauto. discriminate. }
  rewrite (register_new _ _ _ _ _ E).
  destruct (String.eqb (clean_plate plate) ""); [discriminate|].
  destruct (String.eqb driver_id ""); [discriminate|].
  intros _. split; reflexivity.
Qed.

Lemma issue_pass_unregistered plate pass_type now sys :
  registered_drivers sys !! clean_plate plate = None ->
  issue_pass plate pass_type now sys
    = (Raise (Exn ParkingError (MsgNotRegistered (clean_plate plate))),
       sys, []).
Proof.
  intros H. unfold issue_pass, mbind, M_bind, try_except.
  rewrite get_driver_by_plate_spec, clean_plate_idem, H. reflexivity.
Qed.

Lemma issue_pass_already_issued plate pass_type now sys d old :
  registered_drivers sys !! clean_plate plate = Some d ->
  issued_passes sys !! clean_plate plate = Some old ->
  issue_pass plate pass_type now sys
    = (Raise (Exn ParkingError
                (MsgPassAlreadyIssued (class_name (pass_cls old))
                   (clean_plate plate))), sys, []).
Proof.
  intros Hd Hp. unfold issue_pass, mbind, M_bind, try_except.
  rewrite get_driver_by_plate_spec, clean_plate_idem, Hd.
  run_method. rewrite Hp. reflexivity.
Qed.

(** What [issue_pass] does for a registered plate without a pass. *)
Lemma issue_pass_fresh plate pass_type now sys d :
  registered_drivers sys !! clean_plate plate = Some d ->
  issued_passes sys !! clean_plate plate = None ->
  issue_pass plate pass_type now sys
    = let p := clean_plate plate in
      if String.eqb (str_lower pass_type) "student"
      then (Return tt, set_passes (insert p (StudentPass_init (p, now) d)) sys,
            [PrintPassIssued (StudentPass_init (p, now) d)])
      else if String.eqb (str_lower pass_type) "staff"
      then (Return tt, set_passes (insert p (StaffPass_init (p, now) d)) sys,
            [PrintPassIssued (StaffPass_init (p, now) d)])
      else (Raise (Exn ValueError MsgInvalidPassType), sys, []).
Proof.
  intros Hd Hp. unfold issue_pass, mbind, M_bind, try_except.
  rewrite get_driver_by_plate_spec, clean_plate_idem, Hd.
  run_method. rewrite Hp.
  destruct (String.eqb (str_lower pass_type) "student"); [reflexivity|].
  destruct (String.eqb (str_lower pass_type) "staff"); reflexivity.
Qed.

(** C3. [issue_pass(plate, type)] fails if the plate is not registered;
    fails if a pass has already been issued for that plate; fails for
    every type other than "student" or "staff" (in any case of the
    letters), with the invalid-argument error once the two earlier checks
    have passed; and otherwise records a new pass for the plate. *)
Theorem C3_issue_pass (sys : ParkingSystem) (plate pass_type : string)
    (now : datetime) :
  let p := clean_plate plate in
  let r := issue_pass plate pass_type now sys in
  (registered_drivers sys !! p = None ->
   r = (Raise (Exn ParkingError (MsgNotRegistered p)), sys, [])) /\
  (forall old, issued_passes sys !! p = Some old ->
   is_Raise (outcome r) = true /\ state_after r = sys /\
   forall d, registered_drivers sys !! p = Some d ->
     r = (Raise (Exn ParkingError
                   (MsgPassAlreadyIssued (class_name (pass_cls old)) p)),
          sys, [])) /\
  (str_lower pass_type <> "student" -> str_lower pass_type <> "staff" ->
   is_Raise (outcome r) = true /\ state_after r = sys /\
   forall d, registered_drivers sys !! p = Some d ->
     issued_passes sys !! p = None ->
     r = (Raise (Exn ValueError MsgInvalidPassType), sys, [])) /\
  (forall d, registered_drivers sys !! p = Some d ->
   issued_passes sys !! p = None ->
   (str_lower pass_type = "student" ->
    r = (Return tt, set_passes (insert p (StudentPass_init (p, now) d)) sys,
         [PrintPassIssued (StudentPass_init (p, now) d)])) /\
   (str_lower pass_type = "staff" ->
    r = (Return tt, set_passes (insert p (StaffPass_init (p, now) d)) sys,
         [PrintPassIssued (StaffPass_init (p, now) d)]))).
Proof.
  intros p r. subst p r.
  destruct (registered_drivers sys !! clean_plate plate) as [d|] eqn:Hd.
  2: { rewrite (issue_pass_unregistered _ _ _ _ Hd).
       repeat split; intros; discriminate. }
  destruct (issued_passes sys !! clean_plate plate) as [old|] eqn:Hp.
  { rewrite (issue_pass_already_issued _ _ _ _ _ _ Hd Hp).
    repeat split; intros; try discriminate; congruence. }
  rewrite (issue_pass_fresh _ _ _ _ _ Hd Hp). cbv zeta.
  destruct (String.eqb_spec (str_lower pass_type) "student") as [Hs|Hs].
  { rewrite Hs. repeat split; intros; try discriminate; congruence. }
  destruct (String.eqb_spec (str_lower pass_type) "staff") as [Ht|Ht].
  { rewrite Ht. repeat split; intros; try discriminate; congruence. }
  repeat split; intros; try discriminate; congruence.
Qed.

(** ** ParkingSystem: what each call leaves untouched *)

(** Splits on every [match] and [if] of a goal about a call. *)
Ltac split_cases :=
  repeat (case_match; simplify_eq; cbn in *); simplify_eq; auto.

Lemma park_vehicle_frame plate now sys :
  registered_drivers (state_after (park_vehicle plate now sys))
    = registered_drivers sys /\
  issued_passes (state_after (park_vehicle plate now sys))
    = issued_passes sys.
Proof.
  unfold park_vehicle, park_vehicle_try. run_method.
  destruct (bool_decide _); cbn;
    [destruct (add_vehicle _ _ _) as [[[[]|e] lot] out]; cbn|];
    split_cases.
Qed.

Lemma remove_vehicle_and_fee_frame plate now override sys :
  let sys' := state_after (remove_vehicle_and_fee plate now override sys) in
  registered_drivers sys' = registered_drivers sys /\
  issued_passes sys' = issued_passes sys.
Proof.
  unfold remove_vehicle_and_fee, remove_vehicle_and_fee_try. run_method.
  destruct (remove_vehicle _ _) as [[[entry|e] lot] out]; cbn;
    [destruct (issued_passes sys !! clean_plate plate) as [p|]; cbn;
     [destruct (calculate_fee p _); cbn|]|];
    split_cases.
Qed.

Lemma list_pass_rows_state items : forall sys,
  state_after (list_pass_rows items sys) = sys.
Proof.
  induction items as [|[plate card] rest IH]; intros sys; [reflexivity|].
  cbn [list_pass_rows]. run_method.
  destruct (registered_drivers sys !! plate); cbn; [|reflexivity].
  specialize (IH sys). unfold state_after in IH.
  destruct (list_pass_rows rest sys) as [[r s] o]; cbn in *. exact IH.
Qed.

Lemma list_active_passes_state sys :
  state_after (list_active_passes sys) = sys.
Proof.
  unfold list_active_passes. run_method.
  destruct (map_to_list (issued_passes sys)) as [|item rest] eqn:E;
    [reflexivity|].
  pose proof (list_pass_rows_state (item :: rest) sys) as H.
  unfold state_after in H.
  destruct (list_pass_rows (item :: rest) sys) as [[[[]|e] s] o];
    cbn in *; exact H.
Qed.

(** A registered driver stays registered, unchanged, across every call. *)
Lemma do_call_keeps_driver c sys p d :
  registered_drivers sys !! p = Some d ->
  registered_drivers (state_after (do_call c sys)) !! p = Some d.
Proof.
  intros Hd.
  destruct c as [name driver_id plate v_type|plate pass_type now|plate now
                |plate now override|]; cbn [do_call].
  - destruct (registered_drivers sys !! clean_plate plate) as [d'|] eqn:E.
    { rewrite register_duplicate by eauto. exact Hd. }
    rewrite (register_new _ _ _ _ _ E).
    destruct (String.eqb (clean_plate plate) ""); [exact Hd|].
    destruct (String.eqb driver_id ""); [exact Hd|].
    cbn. rewrite lookup_insert_ne by congruence. exact Hd.
  - destruct (registered_drivers sys !! clean_plate plate) as [d'|] eqn:E.
    2: { rewrite (issue_pass_unregistered _ _ _ _ E). exact Hd. }
    destruct (issued_passes sys !! clean_plate plate) as [old|] eqn:Hp.
    { rewrite (issue_pass_already_issued _ _ _ _ _ _ E Hp). exact Hd. }
    rewrite (issue_pass_fresh _ _ _ _ _ E Hp). cbv zeta.
    destruct (String.eqb _ "student"); [exact Hd|].
    destruct (String.eqb _ "staff"); exact Hd.
  - destruct (park_vehicle_frame plate now sys) as [-> _]. exact Hd.
  - destruct (remove_vehicle_and_fee_frame plate now override sys) as [-> _].
    exact Hd.
  - rewrite list_active_passes_state. exact Hd.
Qed.

Lemma run_calls_keeps_driver calls p d : forall sys,
  registered_drivers sys !! p = Some d ->
  registered_drivers (run_calls calls sys) !! p = Some d.
Proof.
  unfold run_calls.
  induction calls as [|c calls IH]; intros sys Hd; [exact Hd|].
  cbn [foldl]. apply IH, do_call_keeps_driver, Hd.
Qed.

Lemma do_call_passes_well_formed c sys :
  passes_well_formed sys -> passes_well_formed (state_after (do_call c sys)).
Proof.
  intros Hwf.
  destruct c as [name driver_id plate v_type|plate pass_type now|plate now
                |plate now override|]; cbn [do_call].
  - destruct (registered_drivers sys !! clean_plate plate) as [d'|] eqn:E.
    { rewrite register_duplicate by eauto. exact Hwf. }
    rewrite (register_new _ _ _ _ _ E).
    destruct (String.eqb (clean_plate plate) ""); [exact Hwf|].
    destruct (String.eqb driver_id ""); exact Hwf.
  - destruct (registered_drivers sys !! clean_plate plate) as [d'|] eqn:E.
    2: { rewrite (issue_pass_unregistered _ _ _ _ E). exact Hwf. }
    destruct (issued_passes sys !! clean_plate plate) as [old|] eqn:Hp.
    { rewrite (issue_pass_already_issued _ _ _ _ _ _ E Hp). exact Hwf. }
    rewrite (issue_pass_fresh _ _ _ _ _ E Hp). cbv zeta.
    destruct (String.eqb _ "student");
      [|destruct (String.eqb _ "staff"); [|exact Hwf]];
      intros q p; cbn;
      (destruct (decide (clean_plate plate = q)) as [->|Hne];
       [rewrite lookup_insert_eq; intros [= <-]; reflexivity
       |rewrite lookup_insert_ne by exact Hne; apply Hwf]).
  - intros q p. destruct (park_vehicle_frame plate now sys) as [_ ->].
    apply Hwf.
  - intros q p.
    destruct (remove_vehicle_and_fee_frame plate now override sys) as [_ ->].
    apply Hwf.
  - rewrite list_active_passes_state. exact Hwf.
Qed.

Lemma run_calls_passes_well_formed calls : forall sys,
  passes_well_formed sys -> passes_well_formed (run_calls calls sys).
Proof.
  unfold run_calls.
  induction calls as [|c calls IH]; intros sys Hwf; [exact Hwf|].
  cbn [foldl]. apply IH, do_call_passes_well_formed, Hwf.
Qed.

Lemma ParkingSystem_init_passes name capacity sys :
  ParkingSystem_init name capacity = Return sys -> passes_well_formed sys.
Proof.
  unfold ParkingSystem_init.
  destruct (ParkingLot_init name capacity) as [lot|e]; [|discriminate].
  intros [= <-] plate p. cbn. rewrite lookup_empty. discriminate.
Qed.

(** ** ParkingSystem: parking and leaving *)

Lemma park_vehicle_try_no_pass plate now sys :
  issued_passes sys !! plate = None ->
  park_vehicle_try plate now sys
    = (Raise (Exn ParkingError (MsgNoActivePass plate)), sys, []).
Proof.
  intros H. unfold park_vehicle_try. run_method.
  rewrite bool_decide_eq_false_2 by (rewrite H; apply is_Some_None).
  reflexivity.
Qed.

Lemma park_vehicle_no_pass plate now sys :
  issued_passes sys !! clean_plate plate = None ->
  park_vehicle plate now sys
    = (Return tt, sys,
       [PrintParkingFailed
          (Exn ParkingError (MsgNoActivePass (clean_plate plate)))]).
Proof.
  intros H. unfold park_vehicle, try_except.
  rewrite (park_vehicle_try_no_pass _ _ _ H). reflexivity.
Qed.

(** What [park_vehicle] does for a plate that has a pass. *)
Lemma park_vehicle_with_pass plate now sys :
  is_Some (issued_passes sys !! clean_plate plate) ->
  park_vehicle plate now sys
    = let lot := parking_lot sys in
      let p := clean_plate plate in
      if is_full lot
      then (Return tt, sys,
            [PrintParkingFailed (Exn FullLotError (MsgLotFull (lot_name lot)))])
      else if is_parked lot plate
      then (Return tt, sys,
            [PrintParkingFailed (Exn ParkingError (MsgAlreadyParked p))])
      else (Return tt,
            mkSystem (set_parked (insert p now) lot) (registered_drivers sys)
              (issued_passes sys),
            [PrintParked p]).
Proof.
  intros H. unfold park_vehicle, park_vehicle_try, try_except, mbind, M_bind,
    gets, on_lot. rewrite (bool_decide_eq_true_2 _ H). cbn [negb]. cbv zeta.
  destruct (is_full (parking_lot sys)) eqn:Hf.
  { rewrite (add_vehicle_full _ _ _ Hf). destruct sys; reflexivity. }
  rewrite <- (is_parked_clean _ plate).
  destruct (is_parked (parking_lot sys) (clean_plate plate)) eqn:Hp.
  { rewrite (add_vehicle_duplicate _ _ _ Hf Hp), clean_plate_idem.
    destruct sys; reflexivity. }
  rewrite (add_vehicle_ok _ _ _ Hf Hp), clean_plate_idem. reflexivity.
Qed.

(** When [park_vehicle] prints its success line, the plate has a pass,
    was not in the lot, and is recorded with the clock reading. *)
Lemma park_vehicle_success plate now sys :
  printed (park_vehicle plate now sys) = [PrintParked (clean_plate plate)] ->
  is_Some (issued_passes sys !! clean_plate plate) /\
  state_after (park_vehicle plate now sys)
    = mkSystem (set_parked (insert (clean_plate plate) now) (parking_lot sys))
        (registered_drivers sys) (issued_passes sys).
Proof.
  destruct (issued_passes sys !! clean_plate plate) as [p|] eqn:E.
  2: { rewrite (park_vehicle_no_pass _ _ _ E). discriminate. }
  rewrite park_vehicle_with_pass by eauto. cbv zeta.
  destruct (is_full _); [discriminate|].
  destruct (is_parked _ _); [discriminate|].
  intros _. split; [eauto|reflexivity].
Qed.

Lemma remove_vehicle_and_fee_absent plate now override sys :
  is_parked (parking_lot sys) plate = false ->
  remove_vehicle_and_fee plate now override sys
    = (Return tt, sys,
       [PrintRemovalFailed
          (Exn VehicleNotParkedError (MsgNotParked (clean_plate plate)))]).
Proof.
  intros H. unfold remove_vehicle_and_fee, remove_vehicle_and_fee_try,
    try_except, mbind, M_bind, on_lot.
  rewrite <- is_parked_clean in H.
  rewrite (remove_vehicle_absent _ _ H), clean_plate_idem.
  destruct sys; reflexivity.
Qed.

(** What [remove_vehicle_and_fee] does for a parked plate with a pass. *)
Lemma remove_vehicle_and_fee_parked plate now override sys entry p :
  parked_vehicles (parking_lot sys) !! clean_plate plate = Some entry ->
  issued_passes sys !! clean_plate plate = Some p ->
  remove_vehicle_and_fee plate now override sys
    = let cp := clean_plate plate in
      let sys' := mkSystem (set_parked (delete cp) (parking_lot sys))
                    (registered_drivers sys) (issued_passes sys) in
      let entry_time := match override with Some t => t | None => entry end in
      let hours := hours_of (now - entry_time) in
      match calculate_fee p hours with
      | Return fee =>
          (Return tt, sys',
           [PrintRemoved cp;
            PrintExitInfo cp entry_time now hours
              (total_seconds (now - entry_time)) p fee])
      | Raise e =>
          (Return tt, sys',
           [PrintRemoved cp;
            if is_ParkingError (exn_cls e) then PrintRemovalFailed e
            else PrintUnexpectedError e])
      end.
Proof.
  intros He Hp. unfold remove_vehicle_and_fee, remove_vehicle_and_fee_try,
    try_except, mbind, M_bind, on_lot, gets, of_result, print.
  rewrite <- (clean_plate_idem plate) in He.
  rewrite (remove_vehicle_present _ _ _ He), clean_plate_idem.
  cbn [issued_passes]. rewrite Hp. cbv zeta.
  destruct (calculate_fee p _) as [fee|e]; [reflexivity|].
  destruct (is_ParkingError (exn_cls e)); reflexivity.
Qed.

(** ** The menu loop *)

(** A registration that raises leaves the system as it was, and what it
    raises is a parking error or a [ValueError]. *)
Lemma register_raise name driver_id plate v_type sys e :
  outcome (register_driver_and_vehicle name driver_id plate v_type sys)
    = Raise e ->
  register_driver_and_vehicle name driver_id plate v_type sys
    = (Raise e, sys, []) /\
  is_ParkingError_or_ValueError (exn_cls e) = true.
Proof.
  destruct (registered_drivers sys !! clean_plate plate) as [d|] eqn:E.
  { rewrite register_duplicate by eauto. intros [= <-]. split; reflexivity. }
  rewrite (register_new _ _ _ _ _ E).
  destruct (String.eqb (clean_plate plate) "");
    [intros [= <-]; split; reflexivity|].
  destruct (String.eqb driver_id "");
    [intros [= <-]; split; reflexivity|discriminate].
Qed.

Lemma issue_pass_raise plate pass_type now sys e :
  outcome (issue_pass plate pass_type now sys) = Raise e ->
  issue_pass plate pass_type now sys = (Raise e, sys, []) /\
  is_ParkingError_or_ValueError (exn_cls e) = true.
Proof.
  destruct (registered_drivers sys !! clean_plate plate) as [d|] eqn:Hd.
  2: { rewrite (issue_pass_unregistered _ _ _ _ Hd). intros [= <-].
       split; reflexivity. }
  destruct (issued_passes sys !! clean_plate plate) as [old|] eqn:Hp.
  { rewrite (issue_pass_already_issued _ _ _ _ _ _ Hd Hp). intros [= <-].
    split; reflexivity. }
  rewrite (issue_pass_fresh _ _ _ _ _ Hd Hp). cbv zeta.
  destruct (String.eqb _ "student"); [discriminate|].
  destruct (String.eqb _ "staff"); [discriminate|].
  intros [= <-]. split; reflexivity.
Qed.

(** C2 (amended). For every plate that has no issued pass, park fails
    with a parking error, and [park_vehicle] catches that error itself:
    it prints the failure, returns normally and leaves the system as it
    was, so that the menu loop prints nothing more and continues.  The
    errors that [register_driver_and_vehicle] and [issue_pass] raise do
    propagate out of the method; they are caught at the boundary of the
    menu loop, printed there, and the loop continues. *)
Theorem C2_park_without_pass (sys : ParkingSystem) (plate : string)
    (now : datetime) :
  issued_passes sys !! clean_plate plate = None ->
  let e := Exn ParkingError (MsgNoActivePass (clean_plate plate)) in
  let menu := PrintMenu (length (get_parked_plates (parking_lot sys)))
                (lot_capacity (parking_lot sys)) in
  park_vehicle_try (clean_plate plate) now sys = (Raise e, sys, []) /\
  park_vehicle plate now sys = (Return tt, sys, [PrintParkingFailed e]) /\
  menu_iteration (Choice3 plate) now sys
    = (Return true, sys,
       [menu; PrintPrompt "Vehicle Parking"; PrintParkingFailed e]) /\
  (forall name driver_id plate' v_type e',
   outcome (register_driver_and_vehicle name driver_id plate' v_type sys)
     = Raise e' ->
   menu_iteration (Choice1 name driver_id plate' v_type) now sys
     = (Return true, sys,
        [menu; PrintPrompt "Driver and Vehicle Registration";
         PrintOperationError e'])) /\
  (forall plate' pass_type e',
   outcome (issue_pass plate' pass_type now sys) = Raise e' ->
   menu_iteration (Choice2 plate' pass_type) now sys
     = (Return true, sys,
        [menu; PrintPrompt "Pass Issuance"; PrintOperationError e'])).
Proof.
  intros Hnone e menu. subst e menu.
  split; [apply park_vehicle_try_no_pass, Hnone|].
  split; [apply park_vehicle_no_pass, Hnone|].
  split; [|split].
  - unfold menu_iteration, _show_menu, try_except, mbind, M_bind, gets,
      print, mret, M_ret.
    rewrite (park_vehicle_no_pass _ _ _ Hnone). reflexivity.
  - intros name driver_id plate' v_type e' Hraise.
    apply register_raise in Hraise as [Heq Hcls].
    unfold menu_iteration, _show_menu, try_except, mbind, M_bind, gets,
      print, mret, M_ret.
    rewrite Heq, Hcls. reflexivity.
  - intros plate' pass_type e' Hraise.
    apply issue_pass_raise in Hraise as [Heq Hcls].
    unfold menu_iteration, _show_menu, try_except, mbind, M_bind, gets,
      print, mret, M_ret.
    rewrite Heq, Hcls. reflexivity.
Qed.

Lemma C2_park_without_pass_witness :
  park_vehicle "aa 11" 7 sample_system
    = (Return tt, sample_system,
       [PrintParkingFailed (Exn ParkingError (MsgNoActivePass "AA11"))]).
Proof.
  exact (proj1 (proj2 (C2_park_without_pass sample_system "aa 11" 7 eq_refl))).
Defined.

(** C2 as stated fails: for a plate without a pass, [park_vehicle]
    returns normally (nothing propagates out of the method), and the line
    that the loop shows is the one printed inside [park_vehicle], not the
    one of the handler at the loop boundary. *)
Lemma C2_counterexample :
  issued_passes sample_system !! clean_plate "AA11" = None /\
  outcome (park_vehicle "AA11" 0 sample_system) = Return tt /\
  printed (menu_iteration (Choice3 "AA11") 0 sample_system)
    = [PrintMenu 0 10; PrintPrompt "Vehicle Parking";
       PrintParkingFailed (Exn ParkingError (MsgNoActivePass "AA11"))].
Proof. repeat split. Qed.

(** ** Round trip and repeated registration *)

Lemma sf_signed_not_nan b x : sf_signed b x = true -> sf_is_nan x = false.
Proof. destruct x; simpl; auto; discriminate. Qed.

Lemma hours_of_not_nan d : sf_is_nan (Prim2SF (hours_of d)) = false.
Proof. exact (sf_signed_not_nan _ _ (hours_of_signed d)). Qed.

Lemma hours_of_nonneg d : 0 <= d -> PrimFloat.ltb (hours_of d) 0 = false.
Proof.
  intros Hd. rewrite float_ltb_zero.
  apply sf_nonneg_not_neg, sf_signed_false_nonneg.
  pose proof (hours_of_signed d) as H.
  replace (d <? 0) with false in H by lia. exact H.
Qed.

(** C8. Round trip: for every plate with an issued pass, successfully
    parking it and then removing it returns the plate to the "not parked"
    state ([is_parked] is false) and the computed fee is non-negative.
    The system is any that the calls of the public methods lead to from a
    constructed one; a fee is computed whenever the clock at exit does not
    read earlier than the entry time. *)
Theorem C8_park_then_remove (name : string) (capacity : Z)
    (sys0 : ParkingSystem) (calls : list call) (plate : string)
    (t_park t_exit : datetime) (override : option datetime) :
  ParkingSystem_init name capacity = Return sys0 ->
  let sys := run_calls calls sys0 in
  is_Some (issued_passes sys !! clean_plate plate) ->
  printed (park_vehicle plate t_park sys) = [PrintParked (clean_plate plate)] ->
  let parked := state_after (park_vehicle plate t_park sys) in
  let r := remove_vehicle_and_fee plate t_exit override parked in
  let entry := match override with Some t => t | None => t_park end in
  is_parked (parking_lot parked) plate = true /\
  is_parked (parking_lot (state_after r)) plate = false /\
  Forall (fun fee => PrimFloat.leb 0 fee = true) (printed_fees (printed r)) /\
  (entry <= t_exit ->
   exists fee, printed_fees (printed r) = [fee] /\
               PrimFloat.leb 0 fee = true).
Proof.
  intros Hinit sys [p Hp] Hpark parked r entry.
  assert (Hwf : pass_well_formed p = true).
  { apply (run_calls_passes_well_formed calls sys0
             (ParkingSystem_init_passes _ _ _ Hinit) _ _ Hp). }
  apply park_vehicle_success in Hpark as [_ Hstate].
  assert (Hentry : parked_vehicles (parking_lot parked) !! clean_plate plate
                   = Some t_park).
  { subst parked. rewrite Hstate. cbn. apply lookup_insert_eq. }
  assert (Hp' : issued_passes parked !! clean_plate plate = Some p).
  { subst parked. rewrite Hstate. exact Hp. }
  split; [apply is_parked_true; eauto|].
  subst r. rewrite (remove_vehicle_and_fee_parked _ _ _ _ _ _ Hentry Hp').
  cbv zeta. fold entry.
  pose proof (calculate_fee_nonneg p (hours_of (t_exit - entry))) as Hfee.
  specialize (fun fee => Hfee fee Hwf (hours_of_not_nan _)).
  destruct (calculate_fee p (hours_of (t_exit - entry))) as [fee|e] eqn:Hc.
  - cbn. split; [apply is_parked_false; cbn; apply lookup_delete_eq|].
    split; [repeat constructor; auto|]. eauto.
  - cbn. split; [apply is_parked_false; cbn; apply lookup_delete_eq|].
    split.
    + destruct (is_ParkingError (exn_cls e)); constructor.
    + intros Hle.
      destruct (calculate_fee_returns p (hours_of (t_exit - entry)))
        as [fee Hfee']; [apply hours_of_nonneg; lia|congruence].
Qed.

Lemma C8_park_then_remove_witness :
  let sys :=
    run_calls [CallRegister "Ayse" "S1" "aa 11" "car";
               CallIssuePass "AA11" "Staff" 5]
      (mkSystem (mkLot "P1" 1 ∅) ∅ ∅) in
  let parked := state_after (park_vehicle "aa11" 1000000 sys) in
  let r := remove_vehicle_and_fee "AA 11" 10801000000 None parked in
  is_parked (parking_lot parked) "aa11" = true /\
  is_parked (parking_lot (state_after r)) "aa11" = false /\
  Forall (fun fee => PrimFloat.leb 0 fee = true) (printed_fees (printed r)) /\
  (1000000 <= 10801000000 ->
   exists fee, printed_fees (printed r) = [fee] /\
               PrimFloat.leb 0 fee = true).
Proof.
  apply (C8_park_then_remove "P1" 1 (mkSystem (mkLot "P1" 1 ∅) ∅ ∅)
           [CallRegister "Ayse" "S1" "aa 11" "car";
            CallIssuePass "AA11" "Staff" 5]
           "aa11" 1000000 10801000000 None).
  - reflexivity.
  - eexists. reflexivity.
  - reflexivity.
Defined.

(** C9. Registering the same plate a second time fails with
    [DuplicatePlateError], and the driver and vehicle recorded by the
    first registration are left unchanged; and that whatever was called in
    between. *)
Theorem C9_second_registration_rejected (sys : ParkingSystem)
    (name1 id1 plate1 type1 : string) (calls : list call)
    (name2 id2 plate2 type2 : string) :
  outcome (register_driver_and_vehicle name1 id1 plate1 type1 sys)
    = Return tt ->
  clean_plate plate2 = clean_plate plate1 ->
  let first := mkDriver name1 id1 (mkVehicle (clean_plate plate1) type1) in
  let sys1 :=
    state_after (register_driver_and_vehicle name1 id1 plate1 type1 sys) in
  let sys2 := run_calls calls sys1 in
  registered_drivers sys1 !! clean_plate plate1 = Some first /\
  register_driver_and_vehicle name2 id2 plate2 type2 sys2
    = (Raise (Exn DuplicatePlateError
                (MsgPlateRegistered (clean_plate plate1))), sys2, []) /\
  registered_drivers sys2 !! clean_plate plate1 = Some first.
Proof.
  intros Hok Hsame first sys1 sys2.
  apply register_success in Hok as [_ Hreg].
  assert (H1 : registered_drivers sys1 !! clean_plate plate1 = Some first).
  { subst sys1. rewrite Hreg. cbn. apply lookup_insert_eq. }
  assert (H2 : registered_drivers sys2 !! clean_plate plate1 = Some first).
  { apply run_calls_keeps_driver, H1. }
  split; [exact H1|]. split; [|exact H2].
  rewrite <- Hsame. apply register_duplicate. rewrite Hsame. eauto.
Qed.

Lemma C9_second_registration_rejected_witness :
  let first := mkDriver "Ayse" "S1" (mkVehicle "AA11" "car") in
  let sys1 :=
    state_after
      (register_driver_and_vehicle "Ayse" "S1" "aa 11" "car" sample_system) in
  let sys2 :=
    run_calls [CallIssuePass "AA11" "student" 5; CallPark "AA11" 9] sys1 in
  registered_drivers sys1 !! "AA11" = Some first /\
  register_driver_and_vehicle "Bora" "S2" "Aa11" "van" sys2
    = (Raise (Exn DuplicatePlateError (MsgPlateRegistered "AA11")), sys2, [])
  /\ registered_drivers sys2 !! "AA11" = Some first.
Proof.
  exact (C9_second_registration_rejected sample_system "Ayse" "S1" "aa 11"
           "car" [CallIssuePass "AA11" "student" 5; CallPark "AA11" 9]
           "Bora" "S2" "Aa11" "van" eq_refl eq_refl).
Defined.

(** * Further properties of the program *)

(** ** Plates: the normal form *)


Lemma ascii_upper_not_lower c : is_lower_letter (ascii_upper c) = false.
Proof.
  destruct c as [[|] [|] [|] [|] [|] [|] [|] [|]]; reflexivity.
Qed.


(** X1. The key that every method derives from a plate is in normal form:
    it contains no space and no lower-case letter, and deriving it again
    changes nothing. *)
Theorem X1_clean_plate_normal_form (plate : string) :
  str_forallb (fun c => negb (is_space c) && negb (is_lower_letter c))
    (clean_plate plate) = true /\
  clean_plate (clean_plate plate) = clean_plate plate.
Proof.
  split; [|apply clean_plate_idem].
  unfold clean_plate.
  induction plate as [|c s IH]; [reflexivity|].
  cbn [str_upper str_remove_spaces].
  destruct (Ascii.eqb (ascii_upper c) " ") eqn:E; [exact IH|].
  cbn [str_forallb]. rewrite IH. unfold is_space.
  rewrite E, ascii_upper_not_lower. reflexivity.
Qed.


(** ** Validation at construction and at registration *)

Lemma blank_plate_cleans_to_empty plate :
  str_forallb is_space plate = true -> clean_plate plate = "".
Proof.
  unfold clean_plate.
  induction plate as [|c s IH]; [reflexivity|].
  cbn [str_forallb str_upper str_remove_spaces]. intros H.
  apply andb_prop in H as [Hc Hs]. unfold is_space in Hc.
  apply Ascii.eqb_eq in Hc. subst c.
  change (Ascii.eqb (ascii_upper " ") " ") with true. cbv iota.
  exact (IH Hs).
Qed.

(** X3. [Vehicle] rejects the empty plate only: the check comes before
    the cleaning, so that a plate made of spaces is accepted and stored as
    the empty plate. *)
Theorem X3_vehicle_plate_checked_before_cleaning (plate v_type : string) :
  (plate = "" ->
   Vehicle_init plate v_type = Raise (Exn ValueError MsgEmptyPlate)) /\
  (plate <> "" ->
   Vehicle_init plate v_type
     = Return (mkVehicle (clean_plate plate) v_type)) /\
  (plate <> "" -> str_forallb is_space plate = true ->
   Vehicle_init plate v_type = Return (mkVehicle "" v_type)).
Proof.
  unfold Vehicle_init, Vehicle_validate_plate.
  destruct (String.eqb_spec plate "") as [->|Hne].
  - repeat split; intros; congruence.
  - repeat split; intros; try congruence.
    rewrite blank_plate_cleans_to_empty by assumption. reflexivity.
Qed.

(** X4. Registering a plate that is not yet registered fails with a
    [ValueError], and records nothing, when the plate is empty once
    cleaned (an empty or blank plate) or, the plate being fine, when the
    driver identifier is empty; otherwise it records the driver under the
    cleaned plate and leaves the other plates as they are. *)
Theorem X4_register_validation (name driver_id plate v_type : string)
    (sys : ParkingSystem) :
  registered_drivers sys !! clean_plate plate = None ->
  let r := register_driver_and_vehicle name driver_id plate v_type sys in
  let p := clean_plate plate in
  (p = "" -> r = (Raise (Exn ValueError MsgEmptyPlate), sys, [])) /\
  (p <> "" -> driver_id = "" ->
   r = (Raise (Exn ValueError MsgEmptyId), sys, [])) /\
  (p <> "" -> driver_id <> "" ->
   outcome r = Return tt /\
   registered_drivers (state_after r) !! p
     = Some (mkDriver name driver_id (mkVehicle p v_type)) /\
   (forall k, k <> p ->
    registered_drivers (state_after r) !! k = registered_drivers sys !! k) /\
   issued_passes (state_after r) = issued_passes sys /\
   parking_lot (state_after r) = parking_lot sys).
Proof.
  intros Hnew r p. subst r p. rewrite (register_new _ _ _ _ _ Hnew).
  destruct (String.eqb_spec (clean_plate plate) "") as [He|He].
  { repeat split; intros; congruence. }
  destruct (String.eqb_spec driver_id "") as [Hi|Hi].
  { repeat split; intros; congruence. }
  split; [congruence|]. split; [congruence|]. intros _ _. cbn.
  split; [reflexivity|]. split; [apply lookup_insert_eq|].
  split; [|split; reflexivity].
  intros k Hk. apply lookup_insert_ne. congruence.
Qed.

Lemma X4_register_validation_witness :
  register_driver_and_vehicle "Ayse" "S1" "   " "car" sample_system
    = (Raise (Exn ValueError MsgEmptyPlate), sample_system, []).
Proof.
  exact (proj1 (X4_register_validation "Ayse" "S1" "   " "car" sample_system
                  eq_refl) eq_refl).
Defined.

(** ** The invariant of the system *)

(** What [remove_vehicle_and_fee] does for a parked plate without a pass
    (a state that the calls never lead to). *)
Lemma remove_vehicle_and_fee_no_pass plate now override sys entry :
  parked_vehicles (parking_lot sys) !! clean_plate plate = Some entry ->
  issued_passes sys !! clean_plate plate = None ->
  remove_vehicle_and_fee plate now override sys
    = (Return tt,
       mkSystem (set_parked (delete (clean_plate plate)) (parking_lot sys))
         (registered_drivers sys) (issued_passes sys),
       [PrintRemoved (clean_plate plate);
        PrintUnexpectedError
          (Exn AttributeError (MsgNoneHasNoAttribute "calculate_fee"))]).
Proof.
  intros He Hp. unfold remove_vehicle_and_fee, remove_vehicle_and_fee_try,
    try_except, mbind, M_bind, on_lot, gets, raise, print.
  rewrite <- (clean_plate_idem plate) in He.
  rewrite (remove_vehicle_present _ _ _ He), clean_plate_idem.
  cbn [issued_passes]. rewrite Hp. reflexivity.
Qed.

(** The lot after a removal: the plate is gone when it was parked. *)
Lemma remove_vehicle_and_fee_lot plate now override sys :
  parking_lot (state_after (remove_vehicle_and_fee plate now override sys))
    = if is_parked (parking_lot sys) plate
      then set_parked (delete (clean_plate plate)) (parking_lot sys)
      else parking_lot sys.
Proof.
  destruct (is_parked (parking_lot sys) plate) eqn:Hp.
  - apply is_parked_true in Hp as [entry He].
    destruct (issued_passes sys !! clean_plate plate) as [p|] eqn:E.
    + rewrite (remove_vehicle_and_fee_parked _ _ _ _ _ _ He E). cbv zeta.
      destruct (calculate_fee p _); reflexivity.
    + rewrite (remove_vehicle_and_fee_no_pass _ _ _ _ _ He E). reflexivity.
  - rewrite (remove_vehicle_and_fee_absent _ _ _ _ Hp). reflexivity.
Qed.

(** The lot after a call: as before, with one plate that has a pass added
    to a lot that had room, or with one plate removed. *)
Lemma do_call_lot c sys :
  let lot := parking_lot sys in
  let lot' := parking_lot (state_after (do_call c sys)) in
  lot' = lot \/
  (exists plate now,
     is_Some (issued_passes sys !! clean_plate plate) /\
     is_full lot = false /\ is_parked lot plate = false /\
     lot' = set_parked (insert (clean_plate plate) now) lot) \/
  (exists plate, lot' = set_parked (delete (clean_plate plate)) lot).
Proof.
  destruct c as [name driver_id plate v_type|plate pass_type now|plate now
                |plate now override|]; cbn [do_call]; cbv zeta.
  - left.
    destruct (registered_drivers sys !! clean_plate plate) as [d'|] eqn:E.
    { rewrite register_duplicate by eauto. reflexivity. }
    rewrite (register_new _ _ _ _ _ E).
    destruct (String.eqb (clean_plate plate) ""); [reflexivity|].
    destruct (String.eqb driver_id ""); reflexivity.
  - left.
    destruct (registered_drivers sys !! clean_plate plate) as [d'|] eqn:E.
    2: { rewrite (issue_pass_unregistered _ _ _ _ E). reflexivity. }
    destruct (issued_passes sys !! clean_plate plate) as [old|] eqn:Hp.
    { rewrite (issue_pass_already_issued _ _ _ _ _ _ E Hp). reflexivity. }
    rewrite (issue_pass_fresh _ _ _ _ _ E Hp). cbv zeta.
    destruct (String.eqb _ "student"); [reflexivity|].
    destruct (String.eqb _ "staff"); reflexivity.
  - destruct (issued_passes sys !! clean_plate plate) as [p|] eqn:E.
    2: { left. rewrite (park_vehicle_no_pass _ _ _ E). reflexivity. }
    rewrite park_vehicle_with_pass by eauto. cbv zeta.
    destruct (is_full (parking_lot sys)) eqn:Hf; [left; reflexivity|].
    destruct (is_parked (parking_lot sys) plate) eqn:Hp; [left; reflexivity|].
    right. left. exists plate, now. rewrite E. eauto.
  - rewrite remove_vehicle_and_fee_lot.
    destruct (is_parked _ _); [right; right; eauto|left; reflexivity].
  - left. rewrite list_active_passes_state. reflexivity.
Qed.

(** A pass on record stays on record, unchanged, across every call. *)
Lemma do_call_keeps_pass c sys k p :
  issued_passes sys !! k = Some p ->
  issued_passes (state_after (do_call c sys)) !! k = Some p.
Proof.
  intros Hk.
  destruct c as [name driver_id plate v_type|plate pass_type now|plate now
                |plate now override|]; cbn [do_call].
  - destruct (registered_drivers sys !! clean_plate plate) as [d'|] eqn:E.
    { rewrite register_duplicate by eauto. exact Hk. }
    rewrite (register_new _ _ _ _ _ E).
    destruct (String.eqb (clean_plate plate) ""); [exact Hk|].
    destruct (String.eqb driver_id ""); exact Hk.
  - destruct (registered_drivers sys !! clean_plate plate) as [d'|] eqn:E.
    2: { rewrite (issue_pass_unregistered _ _ _ _ E). exact Hk. }
    destruct (issued_passes sys !! clean_plate plate) as [old|] eqn:Hp.
    { rewrite (issue_pass_already_issued _ _ _ _ _ _ E Hp). exact Hk. }
    rewrite (issue_pass_fresh _ _ _ _ _ E Hp). cbv zeta.
    destruct (String.eqb _ "student");
      [|destruct (String.eqb _ "staff"); [|exact Hk]];
      cbn; rewrite lookup_insert_ne by congruence; exact Hk.
  - destruct (park_vehicle_frame plate now sys) as [_ ->]. exact Hk.
  - destruct (remove_vehicle_and_fee_frame plate now override sys) as [_ H].
    cbv zeta in H. rewrite H. exact Hk.
  - rewrite list_active_passes_state. exact Hk.
Qed.

Lemma run_calls_keeps_pass calls k p : forall sys,
  issued_passes sys !! k = Some p ->
  issued_passes (run_calls calls sys) !! k = Some p.
Proof.
  unfold run_calls.
  induction calls as [|c calls IH]; intros sys Hk; [exact Hk|].
  cbn [foldl]. apply IH, do_call_keeps_pass, Hk.
Qed.

Lemma do_call_drivers_ok c sys :
  drivers_ok sys -> drivers_ok (state_after (do_call c sys)).
Proof.
  intros Hok.
  destruct c as [name driver_id plate v_type|plate pass_type now|plate now
                |plate now override|]; cbn [do_call].
  - destruct (registered_drivers sys !! clean_plate plate) as [d'|] eqn:E.
    { rewrite register_duplicate by eauto. exact Hok. }
    rewrite (register_new _ _ _ _ _ E).
    destruct (String.eqb_spec (clean_plate plate) "") as [He|He];
      [exact Hok|].
    destruct (String.eqb_spec driver_id "") as [Hi|Hi]; [exact Hok|].
    intros k d. cbn.
    destruct (decide (clean_plate plate = k)) as [<-|Hne].
    + rewrite lookup_insert_eq. intros [= <-]. cbn.
      auto using clean_plate_idem.
    + rewrite lookup_insert_ne by exact Hne. apply Hok.
  - intros k d Hk. apply (Hok k d).
    destruct (registered_drivers sys !! clean_plate plate) as [d'|] eqn:E.
    2: { rewrite (issue_pass_unregistered _ _ _ _ E) in Hk. exact Hk. }
    destruct (issued_passes sys !! clean_plate plate) as [old|] eqn:Hp.
    { rewrite (issue_pass_already_issued _ _ _ _ _ _ E Hp) in Hk. exact Hk. }
    rewrite (issue_pass_fresh _ _ _ _ _ E Hp) in Hk. cbv zeta in Hk.
    destruct (String.eqb _ "student"); [exact Hk|].
    destruct (String.eqb _ "staff"); exact Hk.
  - intros k d. destruct (park_vehicle_frame plate now sys) as [-> _].
    apply Hok.
  - intros k d.
    destruct (remove_vehicle_and_fee_frame plate now override sys) as [H _].
    cbv zeta in H. rewrite H. apply Hok.
  - rewrite list_active_passes_state. exact Hok.
Qed.

Lemma do_call_passes_ok c sys :
  passes_ok sys -> passes_ok (state_after (do_call c sys)).
Proof.
  intros Hok.
  destruct c as [name driver_id plate v_type|plate pass_type now|plate now
                |plate now override|]; cbn [do_call].
  - destruct (registered_drivers sys !! clean_plate plate) as [d'|] eqn:E.
    { rewrite register_duplicate by eauto. exact Hok. }
    rewrite (register_new _ _ _ _ _ E).
    destruct (String.eqb (clean_plate plate) ""); [exact Hok|].
    destruct (String.eqb driver_id ""); [exact Hok|].
    intros k p Hk. cbn in *. destruct (Hok k p Hk) as [Hd Hid].
    split; [|exact Hid].
    rewrite lookup_insert_ne by congruence. exact Hd.
  - destruct (registered_drivers sys !! clean_plate plate) as [d'|] eqn:E.
    2: { rewrite (issue_pass_unregistered _ _ _ _ E). exact Hok. }
    destruct (issued_passes sys !! clean_plate plate) as [old|] eqn:Hp.
    { rewrite (issue_pass_already_issued _ _ _ _ _ _ E Hp). exact Hok. }
    rewrite (issue_pass_fresh _ _ _ _ _ E Hp). cbv zeta.
    destruct (String.eqb _ "student");
      [|destruct (String.eqb _ "staff"); [|exact Hok]];
      intros k p; cbn;
      (destruct (decide (clean_plate plate = k)) as [<-|Hne];
       [rewrite lookup_insert_eq; intros [= <-]; cbn; auto
       |rewrite lookup_insert_ne by exact Hne; apply Hok]).
  - intros k p. destruct (park_vehicle_frame plate now sys) as [-> ->].
    apply Hok.
  - intros k p.
    destruct (remove_vehicle_and_fee_frame plate now override sys) as [H1 H2].
    cbv zeta in H1, H2. rewrite H1, H2. apply Hok.
  - rewrite list_active_passes_state. exact Hok.
Qed.

Lemma do_call_parked_ok c sys :
  parked_ok sys -> parked_ok (state_after (do_call c sys)).
Proof.
  intros Hok k t Hk.
  assert (Hkeep : forall k0, is_Some (issued_passes sys !! k0) ->
            is_Some (issued_passes (state_after (do_call c sys)) !! k0)).
  { intros k0 [p Hp]. exists p. apply do_call_keeps_pass, Hp. }
  destruct (do_call_lot c sys) as [Hl|[(plate & now & Hpass & _ & _ & Hl)
                                      |(plate & Hl)]];
    cbv zeta in Hl; rewrite Hl in Hk; cbn in Hk.
  - destruct (Hok k t Hk). auto.
  - destruct (decide (clean_plate plate = k)) as [<-|Hne].
    + split; [auto|apply clean_plate_idem].
    + rewrite lookup_insert_ne in Hk by exact Hne.
      destruct (Hok k t Hk). auto.
  - apply lookup_delete_Some in Hk as [_ Hk].
    destruct (Hok k t Hk). auto.
Qed.

Lemma do_call_capacity c sys :
  lot_capacity (parking_lot (state_after (do_call c sys)))
    = lot_capacity (parking_lot sys).
Proof.
  destruct (do_call_lot c sys) as [Hl|[(plate & now & _ & _ & _ & Hl)
                                      |(plate & Hl)]];
    cbv zeta in Hl; rewrite Hl; reflexivity.
Qed.

Lemma do_call_system_ok c sys :
  system_ok sys -> system_ok (state_after (do_call c sys)).
Proof.
  intros (Hd & Hp & Hk & Hsize).
  split; [apply do_call_drivers_ok, Hd|].
  split; [apply do_call_passes_ok, Hp|].
  split; [apply do_call_parked_ok, Hk|].
  rewrite do_call_capacity.
  destruct (do_call_lot c sys) as [Hl|[(plate & now & _ & Hf & Hnp & Hl)
                                      |(plate & Hl)]];
    cbv zeta in Hl; rewrite Hl; cbn.
  - exact Hsize.
  - apply is_parked_false in Hnp.
    rewrite map_size_insert_None by exact Hnp. unfold is_full in Hf. lia.
  - destruct (parked_vehicles (parking_lot sys) !! clean_plate plate) eqn:E.
    + rewrite map_size_delete_Some by eauto. lia.
    + rewrite map_size_delete_None by exact E. exact Hsize.
Qed.

Lemma run_calls_system_ok calls : forall sys,
  system_ok sys -> system_ok (run_calls calls sys).
Proof.
  unfold run_calls.
  induction calls as [|c calls IH]; intros sys Hok; [exact Hok|].
  cbn [foldl]. apply IH, do_call_system_ok, Hok.
Qed.

Lemma run_calls_capacity calls : forall sys,
  lot_capacity (parking_lot (run_calls calls sys))
    = lot_capacity (parking_lot sys).
Proof.
  unfold run_calls.
  induction calls as [|c calls IH]; intros sys; [reflexivity|].
  cbn [foldl]. rewrite IH. apply do_call_capacity.
Qed.

Lemma ParkingSystem_init_ok name capacity sys :
  ParkingSystem_init name capacity = Return sys ->
  system_ok sys /\ lot_capacity (parking_lot sys) = capacity.
Proof.
  unfold ParkingSystem_init.
  destruct (ParkingLot_init name capacity) as [lot|e] eqn:E; [|discriminate].
  apply ParkingLot_init_inv in E as [Hcap ->]. intros [= <-].
  split; [|reflexivity].
  split; [|split; [|split]];
    try (intros k x; cbn; rewrite lookup_empty; discriminate).
  cbn. rewrite map_size_empty. lia.
Qed.

(** X5. In every system that calls of the public methods lead to from a
    constructed one, a driver is registered under the plate of its own
    vehicle; that plate is clean and not empty, and the driver has an
    identifier. *)
Theorem X5_registered_drivers_consistent (name : string) (capacity : Z)
    (sys0 : ParkingSystem) (calls : list call) (k : string) (d : Driver) :
  ParkingSystem_init name capacity = Return sys0 ->
  registered_drivers (run_calls calls sys0) !! k = Some d ->
  license_plate (vehicle d) = k /\ clean_plate k = k /\ k <> "" /\
  driver_id d <> "".
Proof.
  intros Hinit Hk.
  apply ParkingSystem_init_ok in Hinit as [Hok _].
  destruct (run_calls_system_ok calls sys0 Hok) as (Hd & _).
  exact (Hd k d Hk).
Qed.

Lemma X5_registered_drivers_consistent_witness :
  license_plate (vehicle sample_driver) = "AA11" /\
  clean_plate "AA11" = "AA11" /\ "AA11" <> "" /\
  driver_id sample_driver <> "".
Proof.
  exact (X5_registered_drivers_consistent "P1" 1
           (mkSystem (mkLot "P1" 1 ∅) ∅ ∅)
           [CallRegister "Ayse" "S1" "aa 11" "car";
            CallIssuePass "AA11" "Staff" 5; CallPark "aa11" 9]
           "AA11" sample_driver eq_refl eq_refl).
Defined.

(** X6. In every such system, a pass is on record only for a registered
    plate; its driver is the driver registered under that plate, its
    identifier starts with that plate, and it is a student pass at the
    student rate or a staff pass at the staff rate. *)
Theorem X6_issued_passes_consistent (name : string) (capacity : Z)
    (sys0 : ParkingSystem) (calls : list call) (k : string)
    (p : ParkingPass) :
  ParkingSystem_init name capacity = Return sys0 ->
  issued_passes (run_calls calls sys0) !! k = Some p ->
  registered_drivers (run_calls calls sys0) !! k = Some (driver p) /\
  fst (pass_id p) = k /\
  pass_well_formed p = true.
Proof.
  intros Hinit Hk.
  pose proof (run_calls_passes_well_formed calls sys0
                (ParkingSystem_init_passes _ _ _ Hinit) k p Hk) as Hwf.
  apply ParkingSystem_init_ok in Hinit as [Hok _].
  destruct (run_calls_system_ok calls sys0 Hok) as (_ & Hp & _).
  destruct (Hp k p Hk). auto.
Qed.

Lemma X6_issued_passes_consistent_witness :
  let sys :=
    run_calls [CallRegister "Ayse" "S1" "aa 11" "car";
               CallIssuePass "AA11" "Staff" 5; CallPark "aa11" 9]
      (mkSystem (mkLot "P1" 1 ∅) ∅ ∅) in
  let p := StaffPass_init ("AA11", 5) sample_driver in
  registered_drivers sys !! "AA11" = Some (driver p) /\
  fst (pass_id p) = "AA11" /\
  pass_well_formed p = true.
Proof.
  exact (X6_issued_passes_consistent "P1" 1
           (mkSystem (mkLot "P1" 1 ∅) ∅ ∅)
           [CallRegister "Ayse" "S1" "aa 11" "car";
            CallIssuePass "AA11" "Staff" 5; CallPark "aa11" 9]
           "AA11" (StaffPass_init ("AA11", 5) sample_driver)
           eq_refl eq_refl).
Defined.

(** X7. In every such system, a parked plate is clean, has a pass on
    record and a registered driver: a vehicle is never in the lot without
    a pass. *)
Theorem X7_parked_plates_have_a_pass (name : string) (capacity : Z)
    (sys0 : ParkingSystem) (calls : list call) (k : string)
    (entry : datetime) :
  ParkingSystem_init name capacity = Return sys0 ->
  parked_vehicles (parking_lot (run_calls calls sys0)) !! k = Some entry ->
  is_Some (issued_passes (run_calls calls sys0) !! k) /\
  is_Some (registered_drivers (run_calls calls sys0) !! k) /\
  clean_plate k = k.
Proof.
  intros Hinit Hk.
  apply ParkingSystem_init_ok in Hinit as [Hok _].
  destruct (run_calls_system_ok calls sys0 Hok) as (_ & Hp & Hpk & _).
  destruct (Hpk k entry Hk) as [[p Hpass] Hclean].
  destruct (Hp k p Hpass) as [Hd _]. eauto.
Qed.

Lemma X7_parked_plates_have_a_pass_witness :
  let sys :=
    run_calls [CallRegister "Ayse" "S1" "aa 11" "car";
               CallIssuePass "AA11" "Staff" 5; CallPark "aa11" 9]
      (mkSystem (mkLot "P1" 1 ∅) ∅ ∅) in
  is_Some (issued_passes sys !! "AA11") /\
  is_Some (registered_drivers sys !! "AA11") /\
  clean_plate "AA11" = "AA11".
Proof.
  exact (X7_parked_plates_have_a_pass "P1" 1
           (mkSystem (mkLot "P1" 1 ∅) ∅ ∅)
           [CallRegister "Ayse" "S1" "aa 11" "car";
            CallIssuePass "AA11" "Staff" 5; CallPark "aa11" 9]
           "AA11" 9 eq_refl eq_refl).
Defined.

(** ** Listings *)

Lemma get_parked_plates_length lot :
  length (get_parked_plates lot) = size (parked_vehicles lot).
Proof.
  unfold get_parked_plates. rewrite length_fmap. apply length_map_to_list.
Qed.

(** X8. [get_parked_plates] lists every parked plate once: the list has
    no repetition, as many entries as the lot has vehicles, and a plate is
    in it exactly when [is_parked] holds of it. *)
Theorem X8_get_parked_plates (lot : ParkingLot) :
  NoDup (get_parked_plates lot) /\
  length (get_parked_plates lot) = size (parked_vehicles lot) /\
  (forall k, k ∈ get_parked_plates lot <->
             is_Some (parked_vehicles lot !! k)) /\
  (forall plate, is_parked lot plate = true <->
                 clean_plate plate ∈ get_parked_plates lot).
Proof.
  assert (Hin : forall k, k ∈ get_parked_plates lot <->
                          is_Some (parked_vehicles lot !! k)).
  { intros k. unfold get_parked_plates. rewrite list_elem_of_fmap. split.
    - intros [[k' t] [-> Hkt]]. apply elem_of_map_to_list in Hkt. eauto.
    - intros [t Ht]. exists (k, t). split; [reflexivity|].
      apply elem_of_map_to_list, Ht. }
  split; [apply NoDup_fst_map_to_list|].
  split; [apply get_parked_plates_length|].
  split; [exact Hin|].
  intros plate. rewrite Hin. apply is_parked_true.
Qed.

(** The rows of [list_active_passes] when every listed pass has its
    driver registered under its plate. *)
Lemma list_pass_rows_ok items : forall sys,
  (forall k p, (k, p) ∈ items ->
     registered_drivers sys !! k = Some (driver p)) ->
  list_pass_rows items sys = (Return tt, sys, pass_row sys <$> items).
Proof.
  induction items as [|[k p] rest IH]; intros sys Hreg; [reflexivity|].
  cbn [list_pass_rows]. unfold mbind, M_bind, gets, print.
  rewrite (Hreg k p) by apply list_elem_of_here.
  rewrite IH by (intros; apply Hreg, list_elem_of_further; assumption).
  reflexivity.
Qed.

(** X9. In every system that calls of the public methods lead to from a
    constructed one, [list_active_passes] returns normally and changes
    nothing; it prints the header and then either the notice that there is
    no pass, or one row for each pass on record (with the name of its
    driver and whether its plate is parked) and the footer.  The rows are
    given up to their order. *)
Theorem X9_list_active_passes (name : string) (capacity : Z)
    (sys0 : ParkingSystem) (calls : list call) :
  ParkingSystem_init name capacity = Return sys0 ->
  let sys := run_calls calls sys0 in
  let r := list_active_passes sys in
  outcome r = Return tt /\
  state_after r = sys /\
  (issued_passes sys = ∅ ->
   printed r = [PrintPassesHeader; PrintNoActivePasses]) /\
  (issued_passes sys <> ∅ ->
   exists rows,
     printed r = PrintPassesHeader :: rows ++ [PrintPassesFooter] /\
     rows ≡ₚ pass_row sys <$> map_to_list (issued_passes sys) /\
     length rows = size (issued_passes sys)).
Proof.
  intros Hinit sys r.
  apply ParkingSystem_init_ok in Hinit as [Hok _].
  destruct (run_calls_system_ok calls sys0 Hok) as (_ & Hp & _).
  fold sys in Hp.
  assert (Hreg : forall k p, (k, p) ∈ map_to_list (issued_passes sys) ->
            registered_drivers sys !! k = Some (driver p)).
  { intros k p Hin. apply elem_of_map_to_list in Hin.
    destruct (Hp k p Hin). assumption. }
  assert (Hr : r = (Return tt, sys,
                    PrintPassesHeader ::
                    match map_to_list (issued_passes sys) with
                    | [] => [PrintNoActivePasses]
                    | items => (pass_row sys <$> items) ++ [PrintPassesFooter]
                    end)).
  { subst r. unfold list_active_passes, mbind, M_bind, gets, print.
    destruct (map_to_list (issued_passes sys)) as [|item rest] eqn:E;
      [reflexivity|].
    rewrite (list_pass_rows_ok _ sys Hreg). reflexivity. }
  rewrite Hr. split; [reflexivity|]. split; [reflexivity|]. split.
  - intros ->. rewrite map_to_list_empty. reflexivity.
  - intros Hne. exists (pass_row sys <$> map_to_list (issued_passes sys)).
    split; [|split; [reflexivity|]].
    + destruct (map_to_list (issued_passes sys)) as [|item rest] eqn:E;
        [|reflexivity].
      apply map_to_list_empty_iff in E. contradiction.
    + rewrite length_fmap. apply length_map_to_list.
Qed.

Lemma X9_list_active_passes_witness :
  let sys :=
    run_calls [CallRegister "Ayse" "S1" "aa 11" "car";
               CallIssuePass "AA11" "Staff" 5; CallPark "aa11" 9]
      (mkSystem (mkLot "P1" 1 ∅) ∅ ∅) in
  outcome (list_active_passes sys) = Return tt /\
  state_after (list_active_passes sys) = sys.
Proof.
  pose proof (X9_list_active_passes "P1" 1 (mkSystem (mkLot "P1" 1 ∅) ∅ ∅)
                [CallRegister "Ayse" "S1" "aa 11" "car";
                 CallIssuePass "AA11" "Staff" 5; CallPark "aa11" 9] eq_refl)
    as (H1 & H2 & _).
  split; [exact H1|exact H2].
Defined.

(** X10. In every such system the capacity is the one the system was
    constructed with and the lot holds at most that many vehicles; the
    menu therefore never shows more parked vehicles than places. *)
Theorem X10_lot_within_capacity (name : string) (capacity : Z)
    (sys0 : ParkingSystem) (calls : list call) :
  ParkingSystem_init name capacity = Return sys0 ->
  let sys := run_calls calls sys0 in
  let parked_count := size (parked_vehicles (parking_lot sys)) in
  lot_capacity (parking_lot sys) = capacity /\
  Z.of_nat parked_count <= capacity /\
  _show_menu sys = (Return tt, sys, [PrintMenu parked_count capacity]).
Proof.
  intros Hinit sys parked_count.
  apply ParkingSystem_init_ok in Hinit as [Hok Hcap].
  destruct (run_calls_system_ok calls sys0 Hok) as (_ & _ & _ & Hsize).
  pose proof (run_calls_capacity calls sys0) as Hc. rewrite Hcap in Hc.
  fold sys in Hsize, Hc. rewrite Hc in Hsize.
  split; [exact Hc|]. split; [exact Hsize|].
  unfold _show_menu, mbind, M_bind, gets, print.
  rewrite get_parked_plates_length, Hc. reflexivity.
Qed.

Lemma X10_lot_within_capacity_witness :
  let sys :=
    run_calls [CallRegister "Ayse" "S1" "aa 11" "car";
               CallIssuePass "AA11" "Staff" 5; CallPark "aa11" 9;
               CallPark "aa11" 10]
      (mkSystem (mkLot "P1" 1 ∅) ∅ ∅) in
  let parked_count := size (parked_vehicles (parking_lot sys)) in
  lot_capacity (parking_lot sys) = 1 /\
  Z.of_nat parked_count <= 1 /\
  _show_menu sys = (Return tt, sys, [PrintMenu parked_count 1]).
Proof.
  exact (X10_lot_within_capacity "P1" 1 (mkSystem (mkLot "P1" 1 ∅) ∅ ∅)
           [CallRegister "Ayse" "S1" "aa 11" "car";
            CallIssuePass "AA11" "Staff" 5; CallPark "aa11" 9;
            CallPark "aa11" 10] eq_refl).
Defined.

(** ** Parking and leaving, whatever the state *)

(** X11. [park_vehicle] never raises.  It prints its success line exactly
    when the plate has a pass, the lot is not full and the plate is not
    parked yet, and then it adds the plate with the clock reading and
    touches nothing else; in every other case it prints one failure line
    that carries a parking error and leaves the system as it was. *)
Theorem X11_park_vehicle_outcomes (sys : ParkingSystem) (plate : string)
    (now : datetime) :
  let r := park_vehicle plate now sys in
  let p := clean_plate plate in
  let lot := parking_lot sys in
  let accepted := is_Some (issued_passes sys !! p) /\
                  is_full lot = false /\ is_parked lot plate = false in
  outcome r = Return tt /\
  (accepted ->
   printed r = [PrintParked p] /\
   state_after r = mkSystem (set_parked (insert p now) lot)
                     (registered_drivers sys) (issued_passes sys)) /\
  (~ accepted ->
   state_after r = sys /\
   exists e, printed r = [PrintParkingFailed e] /\
             is_ParkingError (exn_cls e) = true).
Proof.
  intros r p lot accepted. subst r p lot accepted.
  destruct (issued_passes sys !! clean_plate plate) as [q|] eqn:E.
  2: { rewrite (park_vehicle_no_pass _ _ _ E).
       split; [reflexivity|]. split.
       - intros [[? ?] _]. discriminate.
       - intros _. split; [reflexivity|]. eexists. split; reflexivity. }
  rewrite park_vehicle_with_pass by eauto. cbv zeta.
  destruct (is_full (parking_lot sys)) eqn:Hf.
  { split; [reflexivity|]. split.
    - intros (_ & ? & _). discriminate.
    - intros _. split; [reflexivity|]. eexists. split; reflexivity. }
  destruct (is_parked (parking_lot sys) plate) eqn:Hp.
  { split; [reflexivity|]. split.
    - intros (_ & _ & ?). discriminate.
    - intros _. split; [reflexivity|]. eexists. split; reflexivity. }
  split; [reflexivity|]. split.
  - intros _. split; reflexivity.
  - intros Hn. exfalso. apply Hn. eauto.
Qed.


(** X13. Parking a plate and removing it again restores the system
    exactly: the lot, the drivers and the passes are what they were
    before the vehicle was parked, whatever the fee and whatever the
    clock read, so that the pass is still valid and the plate can be
    parked again. *)
Theorem X13_park_remove_restores (sys : ParkingSystem) (plate : string)
    (t_park t_exit t_again : datetime) (override : option datetime) :
  printed (park_vehicle plate t_park sys) = [PrintParked (clean_plate plate)] ->
  let sys1 := state_after (park_vehicle plate t_park sys) in
  let sys2 :=
    state_after (remove_vehicle_and_fee plate t_exit override sys1) in
  sys2 = sys /\
  printed (park_vehicle plate t_again sys2) = [PrintParked (clean_plate plate)].
Proof.
  intros Hpark sys1 sys2.
  assert (Hacc : is_Some (issued_passes sys !! clean_plate plate) /\
                 is_full (parking_lot sys) = false /\
                 is_parked (parking_lot sys) plate = false).
  { destruct (issued_passes sys !! clean_plate plate) as [q|] eqn:E.
    2: { rewrite (park_vehicle_no_pass _ _ _ E) in Hpark. discriminate. }
    rewrite park_vehicle_with_pass in Hpark by eauto. cbv zeta in Hpark.
    destruct (is_full _); [discriminate|].
    destruct (is_parked _ _); [discriminate|]. eauto. }
  destruct Hacc as ([q Hq] & Hf & Hnp).
  assert (Hrestored : sys2 = sys).
  { subst sys2 sys1.
    rewrite park_vehicle_with_pass by eauto. cbv zeta. rewrite Hf, Hnp.
    cbn [state_after fst snd]. apply is_parked_false in Hnp.
    rewrite (remove_vehicle_and_fee_parked _ _ _ _ t_park q);
      [|cbn; apply lookup_insert_eq|exact Hq].
    cbv zeta.
    assert (Hlot : set_parked (delete (clean_plate plate))
                     (set_parked (insert (clean_plate plate) t_park)
                        (parking_lot sys)) = parking_lot sys).
    { destruct (parking_lot sys) as [n c m]. unfold set_parked. cbn in *.
      rewrite delete_insert_id by exact Hnp. reflexivity. }
    destruct (calculate_fee q _); cbn [state_after fst snd parking_lot
      registered_drivers issued_passes]; rewrite Hlot;
      destruct sys; reflexivity. }
  split; [exact Hrestored|]. rewrite Hrestored.
  rewrite park_vehicle_with_pass by eauto. cbv zeta. rewrite Hf, Hnp.
  reflexivity.
Qed.

Lemma X13_park_remove_restores_witness :
  let sys :=
    run_calls [CallRegister "Ayse" "S1" "aa 11" "car";
               CallIssuePass "AA11" "Staff" 5] sample_system in
  let sys1 := state_after (park_vehicle "aa11" 1000000 sys) in
  let sys2 := state_after (remove_vehicle_and_fee "aa11" 0 None sys1) in
  sys2 = sys /\
  printed (park_vehicle "aa11" 77 sys2) = [PrintParked (clean_plate "aa11")].
Proof.
  exact (X13_park_remove_restores
           (run_calls [CallRegister "Ayse" "S1" "aa 11" "car";
                       CallIssuePass "AA11" "Staff" 5] sample_system)
           "aa11" 1000000 0 77 None eq_refl).
Defined.

(** ** Passes are permanent *)

Lemma issue_pass_success plate pass_type now sys :
  outcome (issue_pass plate pass_type now sys) = Return tt ->
  exists p,
    issued_passes (state_after (issue_pass plate pass_type now sys))
      !! clean_plate plate = Some p /\
    is_Some (registered_drivers sys !! clean_plate plate) /\
    issued_passes sys !! clean_plate plate = None /\
    pass_cls p = (if String.eqb (str_lower pass_type) "student"
                  then StudentPass_cls else StaffPass_cls).
Proof.
  destruct (registered_drivers sys !! clean_plate plate) as [d|] eqn:Hd.
  2: { rewrite (issue_pass_unregistered _ _ _ _ Hd). discriminate. }
  destruct (issued_passes sys !! clean_plate plate) as [old|] eqn:Hp.
  { rewrite (issue_pass_already_issued _ _ _ _ _ _ Hd Hp). discriminate. }
  rewrite (issue_pass_fresh _ _ _ _ _ Hd Hp). cbv zeta.
  destruct (String.eqb _ "student");
    [|destruct (String.eqb _ "staff"); [|discriminate]];
    intros _; eexists; cbn; rewrite lookup_insert_eq; eauto.
Qed.

(** X14. A pass, once issued, is never replaced or removed: whatever is
    called afterwards, the same pass stays on record for the plate, and
    every later [issue_pass] for that plate (however the plate is typed)
    fails with the parking error that names the class of the pass on
    record, and changes nothing. *)
Theorem X14_second_pass_rejected (sys : ParkingSystem)
    (plate1 type1 : string) (now1 : datetime) (calls : list call)
    (plate2 type2 : string) (now2 : datetime) :
  outcome (issue_pass plate1 type1 now1 sys) = Return tt ->
  clean_plate plate2 = clean_plate plate1 ->
  let sys1 := state_after (issue_pass plate1 type1 now1 sys) in
  let sys2 := run_calls calls sys1 in
  let cls := if String.eqb (str_lower type1) "student"
             then StudentPass_cls else StaffPass_cls in
  exists p,
    pass_cls p = cls /\
    issued_passes sys1 !! clean_plate plate1 = Some p /\
    issued_passes sys2 !! clean_plate plate1 = Some p /\
    issue_pass plate2 type2 now2 sys2
      = (Raise (Exn ParkingError
                  (MsgPassAlreadyIssued (class_name cls)
                     (clean_plate plate1))), sys2, []).
Proof.
  intros Hok Hsame sys1 sys2 cls.
  destruct (issue_pass_success _ _ _ _ Hok) as (p & Hp1 & [d Hd] & _ & Hcls).
  fold sys1 in Hp1. exists p.
  assert (Hp2 : issued_passes sys2 !! clean_plate plate1 = Some p)
    by (apply run_calls_keeps_pass, Hp1).
  assert (Hd2 : registered_drivers sys2 !! clean_plate plate1 = Some d).
  { apply run_calls_keeps_driver. subst sys1.
    destruct (issued_passes sys !! clean_plate plate1) as [old|] eqn:Hold.
    { rewrite (issue_pass_already_issued _ _ _ _ _ _ Hd Hold) in Hok.
      discriminate. }
    rewrite (issue_pass_fresh _ _ _ _ _ Hd Hold). cbv zeta.
    destruct (String.eqb _ "student"); [exact Hd|].
    destruct (String.eqb _ "staff"); exact Hd. }
  split; [exact Hcls|]. split; [exact Hp1|]. split; [exact Hp2|].
  rewrite <- Hsame in Hp2, Hd2 |- *.
  rewrite (issue_pass_already_issued _ _ _ _ _ _ Hd2 Hp2).
  subst cls. rewrite Hcls. reflexivity.
Qed.

Lemma X14_second_pass_rejected_witness :
  let sys :=
    run_calls [CallRegister "Ayse" "S1" "aa 11" "car"] sample_system in
  let sys1 := state_after (issue_pass "aa11" "Staff" 5 sys) in
  let sys2 := run_calls [CallPark "AA11" 9; CallRemove "AA11" 99 None] sys1 in
  let cls := if String.eqb (str_lower "Staff") "student"
             then StudentPass_cls else StaffPass_cls in
  exists p,
    pass_cls p = cls /\
    issued_passes sys1 !! clean_plate "aa11" = Some p /\
    issued_passes sys2 !! clean_plate "aa11" = Some p /\
    issue_pass "AA 11" "student" 100 sys2
      = (Raise (Exn ParkingError
                  (MsgPassAlreadyIssued (class_name cls)
                     (clean_plate "aa11"))), sys2, []).
Proof.
  exact (X14_second_pass_rejected
           (run_calls [CallRegister "Ayse" "S1" "aa 11" "car"] sample_system)
           "aa11" "Staff" 5 [CallPark "AA11" 9; CallRemove "AA11" 99 None]
           "AA 11" "student" 100 eq_refl eq_refl).
Defined.

(** ** A duration that comes out negative *)

Lemma calculate_fee_negative p h :
  PrimFloat.ltb h 0 = true ->
  calculate_fee p h = Raise (Exn ValueError MsgNegativeHours).
Proof.
  intros H. unfold calculate_fee, StudentPass_calculate_fee,
    ParkingPass_calculate_fee, StaffPass_calculate_fee.
  rewrite H. destruct (pass_cls p); reflexivity.
Qed.

(** X15. When the hours computed at exit are negative (the clock reads
    earlier than the entry time, or the override lies in the future), the
    vehicle is removed from the lot all the same, no fee is reported, and
    the [ValueError] of [calculate_fee] is reported as an unexpected
    error; the method returns normally. *)
Theorem X15_negative_duration_removes_without_fee (sys : ParkingSystem)
    (plate : string) (now entry : datetime) (override : option datetime)
    (p : ParkingPass) :
  parked_vehicles (parking_lot sys) !! clean_plate plate = Some entry ->
  issued_passes sys !! clean_plate plate = Some p ->
  let entry_time := match override with Some t => t | None => entry end in
  PrimFloat.ltb (hours_of (now - entry_time)) 0 = true ->
  let r := remove_vehicle_and_fee plate now override sys in
  outcome r = Return tt /\
  is_parked (parking_lot (state_after r)) plate = false /\
  printed r = [PrintRemoved (clean_plate plate);
               PrintUnexpectedError (Exn ValueError MsgNegativeHours)] /\
  printed_fees (printed r) = [].
Proof.
  intros He Hp entry_time Hneg r. subst r.
  rewrite (remove_vehicle_and_fee_parked _ _ _ _ _ _ He Hp). cbv zeta.
  fold entry_time. rewrite (calculate_fee_negative _ _ Hneg). cbn.
  repeat split. apply is_parked_false. cbn. apply lookup_delete_eq.
Qed.

Lemma X15_negative_duration_removes_without_fee_witness :
  let sys :=
    run_calls [CallRegister "Ayse" "S1" "aa 11" "car";
               CallIssuePass "AA11" "student" 5; CallPark "AA11" 7200000000]
      sample_system in
  let r := remove_vehicle_and_fee "aa 11" 3600000000 None sys in
  outcome r = Return tt /\
  is_parked (parking_lot (state_after r)) "aa 11" = false /\
  printed r = [PrintRemoved (clean_plate "aa 11");
               PrintUnexpectedError (Exn ValueError MsgNegativeHours)] /\
  printed_fees (printed r) = [].
Proof.
  exact (X15_negative_duration_removes_without_fee
           (run_calls [CallRegister "Ayse" "S1" "aa 11" "car";
                       CallIssuePass "AA11" "student" 5;
                       CallPark "AA11" 7200000000] sample_system)
           "aa 11" 3600000000 7200000000 None
           (StudentPass_init ("AA11", 5) sample_driver)
           eq_refl eq_refl eq_refl).
Defined.

(** ** Calls that raise, and the menu loop *)

Lemma park_vehicle_returns plate now sys :
  outcome (park_vehicle plate now sys) = Return tt.
Proof.
  destruct (issued_passes sys !! clean_plate plate) as [q|] eqn:E.
  2: { rewrite (park_vehicle_no_pass _ _ _ E). reflexivity. }
  rewrite park_vehicle_with_pass by eauto. cbv zeta.
  destruct (is_full _); [reflexivity|].
  destruct (is_parked _ _); reflexivity.
Qed.

Lemma remove_vehicle_and_fee_returns plate now override sys :
  outcome (remove_vehicle_and_fee plate now override sys) = Return tt.
Proof.
  destruct (is_parked (parking_lot sys) plate) eqn:Hpk.
  2: { rewrite (remove_vehicle_and_fee_absent _ _ _ _ Hpk). reflexivity. }
  apply is_parked_true in Hpk as [entry He].
  destruct (issued_passes sys !! clean_plate plate) as [q|] eqn:E.
  - rewrite (remove_vehicle_and_fee_parked _ _ _ _ _ _ He E). cbv zeta.
    destruct (calculate_fee q _); reflexivity.
  - rewrite (remove_vehicle_and_fee_no_pass _ _ _ _ _ He E). reflexivity.
Qed.

(** X16. A call of a public method that raises leaves the system exactly
    as it was.  Only [register_driver_and_vehicle], [issue_pass] and
    [list_active_passes] can raise ([park_vehicle] and
    [remove_vehicle_and_fee] catch everything), and what the first two
    raise is a parking error or a [ValueError]. *)
Theorem X16_raising_call_changes_nothing (c : call) (sys : ParkingSystem)
    (e : exn) :
  outcome (do_call c sys) = Raise e ->
  state_after (do_call c sys) = sys /\
  match c with
  | CallRegister _ _ _ _ | CallIssuePass _ _ _ =>
      is_ParkingError_or_ValueError (exn_cls e) = true
  | CallListPasses => True
  | CallPark _ _ | CallRemove _ _ _ => False
  end.
Proof.
  destruct c as [name driver_id plate v_type|plate pass_type now|plate now
                |plate now override|]; cbn [do_call]; intros Hraise.
  - apply register_raise in Hraise as [-> Hcls]. split; [reflexivity|exact Hcls].
  - apply issue_pass_raise in Hraise as [-> Hcls]. split; [reflexivity|exact Hcls].
  - rewrite park_vehicle_returns in Hraise. discriminate.
  - rewrite remove_vehicle_and_fee_returns in Hraise. discriminate.
  - split; [apply list_active_passes_state|exact I].
Qed.

Lemma X16_raising_call_changes_nothing_witness :
  state_after (do_call (CallRegister "Ayse" "" "AA11" "car") sample_system)
    = sample_system /\
  is_ParkingError_or_ValueError (exn_cls (Exn ValueError MsgEmptyId)) = true.
Proof.
  exact (X16_raising_call_changes_nothing
           (CallRegister "Ayse" "" "AA11" "car") sample_system
           (Exn ValueError MsgEmptyId) eq_refl).
Defined.

(** One iteration of the loop: it returns whether to go on, and leaves
    the system as the call of the choice leaves it. *)
Lemma menu_iteration_spec inp now sys :
  outcome (menu_iteration inp now sys)
    = Return (match inp with Choice6 => false | _ => true end) /\
  state_after (menu_iteration inp now sys)
    = match call_of_input inp now with
      | Some c => state_after (do_call c sys)
      | None => sys
      end.
Proof.
  destruct inp as [name driver_id plate v_type|plate pass_type|plate|plate
                  | | |]; cbn [call_of_input do_call];
    unfold menu_iteration, _show_menu, try_except, mbind, M_bind, gets,
      print, mret, M_ret, outcome, state_after.
  - destruct (register_driver_and_vehicle _ _ _ _ sys) as [[[[]|e] s] o];
      cbn; [|destruct (is_ParkingError_or_ValueError _)]; split; reflexivity.
  - destruct (issue_pass _ _ _ sys) as [[[[]|e] s] o];
      cbn; [|destruct (is_ParkingError_or_ValueError _)]; split; reflexivity.
  - destruct (park_vehicle _ _ sys) as [[[[]|e] s] o];
      cbn; [|destruct (is_ParkingError_or_ValueError _)]; split; reflexivity.
  - destruct (remove_vehicle_and_fee _ _ _ sys) as [[[[]|e] s] o];
      cbn; [|destruct (is_ParkingError_or_ValueError _)]; split; reflexivity.
  - destruct (list_active_passes sys) as [[[[]|e] s] o];
      cbn; [|destruct (is_ParkingError_or_ValueError _)]; split; reflexivity.
  - split; reflexivity.
  - split; reflexivity.
Qed.

(** X17. No exception leaves an iteration of the menu loop: whatever is
    typed and whatever the state, the iteration returns normally, the loop
    goes on unless the choice was the exit, and the system is left as the
    method of the choice leaves it (unchanged for the exit and for an
    invalid choice). *)
Theorem X17_menu_iteration_never_raises (inp : menu_input) (now : datetime)
    (sys : ParkingSystem) :
  outcome (menu_iteration inp now sys)
    = Return (match inp with Choice6 => false | _ => true end) /\
  state_after (menu_iteration inp now sys)
    = match call_of_input inp now with
      | Some c => state_after (do_call c sys)
      | None => sys
      end.
Proof.
  unfold menu_iteration, _show_menu, try_except, mbind, M_bind, gets, print,
    mret, M_ret, outcome, state_after.
  destruct inp as [name driver_id plate v_type|plate pass_type|plate|plate
                  | | |]; cbn [call_of_input do_call].
  - destruct (register_driver_and_vehicle _ _ _ _ sys) as [[[[]|e] s] o];
      cbn; [|destruct (is_ParkingError_or_ValueError _)]; split; reflexivity.
  - destruct (issue_pass _ _ _ sys) as [[[[]|e] s] o];
      cbn; [|destruct (is_ParkingError_or_ValueError _)]; split; reflexivity.
  - destruct (park_vehicle _ _ sys) as [[[[]|e] s] o];
      cbn; [|destruct (is_ParkingError_or_ValueError _)]; split; reflexivity.
  - destruct (remove_vehicle_and_fee _ _ _ sys) as [[[[]|e] s] o];
      cbn; [|destruct (is_ParkingError_or_ValueError _)]; split; reflexivity.
  - destruct (list_active_passes sys) as [[[[]|e] s] o];
      cbn; [|destruct (is_ParkingError_or_ValueError _)]; split; reflexivity.
  - split; reflexivity.
  - split; reflexivity.
Qed.



(** X19. What is typed after the exit choice is never read: the loop run
    on any lines that contain an exit is the loop run on the lines up to
    and including that exit. *)
Theorem X19_nothing_runs_after_exit (pre post : list (menu_input * datetime))
    (now : datetime) (sys : ParkingSystem) :
  run_menu (pre ++ (Choice6, now) :: post) sys
    = run_menu (pre ++ [(Choice6, now)]) sys.
Proof.
  revert sys.
  induction pre as [|[inp t] rest IH]; intros sys.
  - cbn [app run_menu]. unfold mbind, M_bind.
    pose proof (proj1 (menu_iteration_spec Choice6 now sys)) as H.
    unfold outcome in H.
    destruct (menu_iteration Choice6 now sys) as [[r s] o]. cbn in H.
    subst r. reflexivity.
  - cbn [app run_menu]. unfold mbind, M_bind.
    destruct (menu_iteration inp t sys) as [[[[|]|e] s] o];
      [rewrite IH|..]; reflexivity.
Qed.

(** ** The hours of a stay, and a whole session *)

Lemma SFleb_zero_r_signed_true x :
  sf_signed true x = true -> SFleb x (S754_zero false) = true.
Proof. destruct x as [[|]|[|]| |[|] ? ?]; simpl; auto; discriminate. Qed.

(** X20. The hours computed from the entry and exit times have the sign
    of the duration and are never a NaN: they are not below zero when the
    exit is not before the entry, and not above zero when it is. *)
Theorem X20_hours_follow_the_duration (entry_time exit_time : datetime) :
  let hours_parked := hours_of (exit_time - entry_time) in
  (entry_time <= exit_time -> PrimFloat.leb 0 hours_parked = true) /\
  (exit_time <= entry_time -> PrimFloat.leb hours_parked 0 = true) /\
  (PrimFloat.leb 0 hours_parked || PrimFloat.leb hours_parked 0 = true).
Proof.
  intros hours_parked. subst hours_parked.
  set (d := exit_time - entry_time).
  pose proof (hours_of_signed d) as Hs.
  assert (Hpos : 0 <= d -> PrimFloat.leb 0 (hours_of d) = true).
  { intros Hd. rewrite float_leb_zero. apply sf_signed_false_nonneg.
    replace (d <? 0) with false in Hs by lia. exact Hs. }
  assert (Hneg : d <= 0 -> PrimFloat.leb (hours_of d) 0 = true).
  { intros Hd. destruct (Z.eq_dec d 0) as [->|Hne]; [reflexivity|].
    rewrite FloatAxioms.leb_spec, Prim2SF_zero.
    apply SFleb_zero_r_signed_true.
    replace (d <? 0) with true in Hs by lia. exact Hs. }
  split; [intros; apply Hpos; lia|]. split; [intros; apply Hneg; lia|].
  destruct (Z.le_ge_cases 0 d) as [H|H].
  - rewrite (Hpos H). reflexivity.
  - rewrite (Hneg H). apply orb_true_r.
Qed.



(** ** Rounding does not reach zero above the smallest number *)

Section NonZero.
Variables prec emax : Z.
Hypothesis prec_pos : 0 < prec.

Lemma shr_1_div2 r : 0 <= shr_m r -> shr_m (shr_1 r) = shr_m r / 2.
Proof.
  destruct r as [m r s]; simpl.
  destruct m as [|[p|p|]|[p|p|]]; cbn [shr_m]; intros H; try lia;
    try reflexivity.
  - apply Z.div_unique with 1; lia.
  - apply Z.div_unique with 0; lia.
Qed.

Lemma iter_pos_shr_1_div n : forall r,
  0 <= shr_m r ->
  shr_m (SpecFloat.iter_pos shr_1 n r) = shr_m r / 2 ^ Z.pos n.
Proof.
  induction n as [n IH|n IH|]; intros r Hr; simpl SpecFloat.iter_pos.
  - rewrite IH by (apply iter_pos_shr_1_nonneg, shr_1_nonneg, Hr).
    rewrite IH by (apply shr_1_nonneg, Hr).
    rewrite shr_1_div2 by exact Hr.
    rewrite !Z.div_div by (try apply Z.pow_pos_nonneg; lia).
    f_equal. replace (Z.pos n~1) with (1 + Z.pos n + Z.pos n) by lia.
    rewrite !Z.pow_add_r by lia. change (2 ^ 1) with 2. ring.
  - rewrite IH by (apply iter_pos_shr_1_nonneg, Hr).
    rewrite IH by exact Hr.
    rewrite !Z.div_div by (try apply Z.pow_pos_nonneg; lia).
    f_equal. replace (Z.pos n~0) with (Z.pos n + Z.pos n) by lia.
    rewrite Z.pow_add_r by lia. ring.
  - rewrite shr_1_div2 by exact Hr. reflexivity.
Qed.

Lemma Zdigits2_bounds m :
  0 < m -> 2 ^ (Zdigits2 m - 1) <= m < 2 ^ Zdigits2 m.
Proof.
  destruct m as [|p|p]; try lia. intros _. apply digits2_pos_bounds.
Qed.

Lemma Zdigits2_pos m : 0 < m -> 0 < Zdigits2 m.
Proof. destruct m; simpl; lia. Qed.

Lemma Zdigits2_mono m m' : 0 < m -> m <= m' -> Zdigits2 m <= Zdigits2 m'.
Proof.
  intros Hm Hle.
  pose proof (Zdigits2_bounds m Hm) as [Hlo _].
  pose proof (Zdigits2_bounds m' ltac:(lia)) as [_ Hhi].
  pose proof (Zdigits2_pos m' ltac:(lia)).
  destruct (Z.le_gt_cases (Zdigits2 m) (Zdigits2 m')) as [|Hgt]; [assumption|].
  assert (2 ^ Zdigits2 m' <= 2 ^ (Zdigits2 m - 1))
    by (apply Z.pow_le_mono_r; lia).
  lia.
Qed.

(** Shifting a positive mantissa to its rounding exponent leaves a
    positive mantissa when its value is above [2^emin]. *)
Lemma shr_fexp_pos m e l :
  0 < m -> SpecFloat.emin prec emax < Zdigits2 m + e ->
  0 < shr_m (fst (shr_fexp prec emax m e l)) /\
  (snd (shr_fexp prec emax m e l) = e /\
   shr_m (fst (shr_fexp prec emax m e l)) = m \/
   SpecFloat.emin prec emax <= snd (shr_fexp prec emax m e l)).
Proof.
  intros Hm Hbig. unfold shr_fexp, shr.
  assert (Hrec : shr_m (shr_record_of_loc m l) = m)
    by (destruct l as [|[| |]]; reflexivity).
  destruct (fexp prec emax (Zdigits2 m + e) - e) as [|n|n] eqn:En; cbn [fst snd].
  - rewrite Hrec. split; [exact Hm|left; auto].
  - rewrite iter_pos_shr_1_div by (rewrite Hrec; lia). rewrite Hrec.
    pose proof (Zdigits2_bounds m Hm) as [Hlo _].
    assert (Hn : Z.pos n <= Zdigits2 m - 1)
      by (unfold fexp in En; lia).
    assert (2 ^ Z.pos n <= 2 ^ (Zdigits2 m - 1))
      by (apply Z.pow_le_mono_r; lia).
    assert (0 < 2 ^ Z.pos n) by (apply Z.pow_pos_nonneg; lia).
    split.
    + apply Z.div_str_pos. lia.
    + right. unfold fexp in En. lia.
  - rewrite Hrec. split; [exact Hm|left; auto].
Qed.

Lemma round_nearest_even_ge m l : m <= round_nearest_even m l.
Proof.
  destruct l as [|[| |]]; simpl; try lia. destruct (Z.even m); lia.
Qed.

(** The result of rounding is then a finite number or an infinity. *)
Lemma binary_round_aux_nonzero s m e l :
  0 < m -> SpecFloat.emin prec emax < Zdigits2 m + e ->
  match binary_round_aux prec emax s m e l with
  | S754_finite _ _ _ | S754_infinity _ => True
  | _ => False
  end.
Proof.
  intros Hm Hbig. unfold binary_round_aux.
  pose proof (shr_fexp_pos m e l Hm Hbig) as [H1 He1].
  destruct (shr_fexp prec emax m e l) as [r1 e1]. cbn [fst snd] in H1, He1.
  set (m1 := round_nearest_even (shr_m r1) (loc_of_shr_record r1)).
  assert (Hm1 : shr_m r1 <= m1) by apply round_nearest_even_ge.
  assert (Hbig1 : SpecFloat.emin prec emax < Zdigits2 m1 + e1).
  { pose proof (Zdigits2_mono (shr_m r1) m1 H1 Hm1).
    pose proof (Zdigits2_pos (shr_m r1) H1).
    destruct He1 as [[-> Heq]|He1]; [rewrite Heq in *|]; lia. }
  pose proof (shr_fexp_pos m1 e1 loc_Exact ltac:(lia) Hbig1) as [H2 _].
  destruct (shr_fexp prec emax m1 e1 loc_Exact) as [r2 e2]. cbn [fst] in H2.
  destruct (shr_m r2) as [|p|p]; try lia.
  destruct (e2 <=? emax - prec); exact I.
Qed.

End NonZero.


Lemma SFltb_zero_pos r :
  sf_signed false r = true ->
  match r with S754_finite _ _ _ | S754_infinity _ => True | _ => False end ->
  SFltb (S754_zero false) r = true.
Proof. destruct r as [[|]|[|]| |[|] ? ?]; simpl; auto; try discriminate; tauto. Qed.

Lemma digits2_pos_iter_xO p k :
  Z.pos (digits2_pos (Pos.iter xO p k)) = Z.pos (digits2_pos p) + Z.pos k.
Proof.
  induction k as [|k IH] using Pos.peano_ind.
  - simpl. lia.
  - rewrite Pos.iter_succ. simpl digits2_pos. lia.
Qed.

(** Normalizing a positive integer multiple of [2^e], [e] not below
    [emin], gives a number above zero. *)
Lemma binary_normalize_pos m e :
  0 < m -> SpecFloat.emin prec emax <= e ->
  SFltb (S754_zero false) (binary_normalize prec emax m e false) = true.
Proof.
  intros Hm He. destruct m as [|p|p]; try lia.
  cbn [binary_normalize]. unfold binary_round.
  assert (Hbig : SpecFloat.emin prec emax <
                 Z.pos (digits2_pos (fst (shl_align p e
                   (fexp prec emax (Z.pos (digits2_pos p) + e))))) +
                 snd (shl_align p e
                   (fexp prec emax (Z.pos (digits2_pos p) + e)))).
  { unfold shl_align.
    destruct (fexp prec emax (Z.pos (digits2_pos p) + e) - e) as [|k|k] eqn:E;
      cbn [fst snd]; try lia.
    rewrite digits2_pos_iter_xO. lia. }
  destruct (shl_align p e _) as [mz ez]. cbn [fst snd] in Hbig.
  apply SFltb_zero_pos.
  - apply binary_round_aux_signed. lia.
  - apply binary_round_aux_nonzero; [reflexivity|lia|exact Hbig].
Qed.

Lemma valid_exponent m e :
  bounded prec emax m e = true -> SpecFloat.emin prec emax <= e.
Proof.
  unfold bounded, canonical_mantissa, fexp. intros H.
  apply andb_prop in H as [Hc _]. apply Z.eqb_eq in Hc. lia.
Qed.

Lemma Zdigits2_mul_lower a b :
  Z.pos (digits2_pos a) + Z.pos (digits2_pos b) - 1
    <= Z.pos (digits2_pos (a * b)).
Proof.
  pose proof (digits2_pos_bounds a) as [Ha _].
  pose proof (digits2_pos_bounds b) as [Hb _].
  pose proof (digits2_pos_bounds (a * b)) as [_ Hab].
  rewrite Pos2Z.inj_mul in Hab.
  assert (H : 2 ^ (Z.pos (digits2_pos a) - 1 + (Z.pos (digits2_pos b) - 1))
              < 2 ^ Z.pos (digits2_pos (a * b))).
  { rewrite Z.pow_add_r by lia.
    eapply Z.le_lt_trans; [|exact Hab].
    apply Z.mul_le_mono_nonneg; try lia; apply Z.pow_nonneg; lia. }
  apply Z.pow_lt_mono_r_iff in H; lia.
Qed.

(** The product of a number above zero with a rate whose binade is that
    of 2.0 and 3.0 is above zero: it cannot underflow. *)
Lemma SFmul_pos x my ey :
  valid_binary x = true ->
  SFltb (S754_zero false) x = true ->
  2 <= Z.pos (digits2_pos my) + ey ->
  SFltb (S754_zero false) (SF64mul x (S754_finite false my ey)) = true.
Proof.
  intros Hv Hx Hy.
  destruct x as [[|]|[|]| |[|] mx ex]; try discriminate; [reflexivity|].
  unfold SF64mul, SFmul. cbn [xorb].
  cbn [valid_binary] in Hv. apply valid_exponent in Hv.
  pose proof (Zdigits2_mul_lower mx my).
  apply SFltb_zero_pos.
  - apply binary_round_aux_signed. lia.
  - apply binary_round_aux_nonzero; [reflexivity|lia|].
    cbn [Zdigits2]. lia.
Qed.

Lemma above_one_strict (m : positive) (e : Z) :
  Z.pos (digits2_pos m) = 53 -> -52 < e ->
  0 < Z.pos m * 2 ^ (e + 52) - 4503599627370496.
Proof.
  intros Hd He.
  pose proof (digits2_pos_bounds m) as [Hlo _].
  assert (2 ^ 1 <= 2 ^ (e + 52)) by (apply Z.pow_le_mono_r; lia).
  replace (Z.pos (digits2_pos m) - 1) with 52 in Hlo by lia.
  change (2 ^ 52) with 4503599627370496 in *.
  change (2 ^ 1) with 2 in *. nia.
Qed.

Section SubOnePositive.
Variable c : positive.
Hypothesis c_value : Z.pos c = 4503599627370496.

Let one := S754_finite false c (-52).

(** A number above [1.0], less [1.0], is above zero. *)
Lemma SFsub_one_pos_gen x :
  valid_binary x = true -> SFleb x one = false -> sf_is_nan x = false ->
  SFltb (S754_zero false) (SF64sub x one) = true.
Proof.
  intros Hv Hgt Hnan.
  destruct x as [[|]|[|]| |s m e]; try discriminate; try reflexivity.
  destruct s; [discriminate|].
  cbn [valid_binary] in Hv.
  pose proof (valid_exponent _ _ Hv) as Hemin.
  unfold SpecFloat.emin, prec, emax in Hemin.
  apply canonical_digits in Hv as [Hle Heq53].
  unfold SF64sub, SFsub, one.
  set (ez := Z.min e (-52)).
  rewrite !shl_align_value by (subst ez; lia).
  rewrite c_value. unfold cond_Zopp.
  apply binary_normalize_pos;
    [|unfold SpecFloat.emin, prec, emax; subst ez; lia].
  unfold SFleb, SFcompare, one in Hgt.
  destruct (Z.compare_spec e (-52)) as [Heq|Hlt|Hgt']; cbv iota in Hgt.
  - assert (Hez : ez = -52) by (subst ez; lia).
    rewrite Hez, Heq. change (-52 - -52) with 0.
    rewrite Z.pow_0_r, !Z.mul_1_r.
    change (PosDef.Pos.compare_cont Eq m c) with (Pos.compare m c) in Hgt.
    destruct (Pos.compare_spec m c) as [H|H|H]; try discriminate. lia.
  - discriminate.
  - replace ez with (-52) by (subst ez; lia).
    change (-52 - -52) with 0. rewrite Z.pow_0_r, Z.mul_1_r.
    replace (e - -52) with (e + 52) by lia.
    apply above_one_strict; auto.
Qed.
End SubOnePositive.

Lemma SFsub_one_pos x :
  valid_binary x = true -> SFleb x sf_one = false -> sf_is_nan x = false ->
  SFltb (S754_zero false) (SF64sub x sf_one) = true.
Proof. exact (SFsub_one_pos_gen 4503599627370496 eq_refl x). Qed.

Lemma float_sub_one_pos h :
  PrimFloat.leb h 1 = false -> sf_is_nan (Prim2SF h) = false ->
  PrimFloat.ltb 0 (PrimFloat.sub h 1) = true.
Proof.
  rewrite FloatAxioms.leb_spec, FloatAxioms.ltb_spec, FloatAxioms.sub_spec.
  rewrite Prim2SF_one, Prim2SF_zero. intros Hgt Hnan.
  apply SFsub_one_pos; [apply Prim2SF_valid|exact Hgt|exact Hnan].
Qed.

Section Rates.
(** The mantissa of the rate stays a variable, as that of [1.0] above. *)
Variables (rate : float) (my : positive) (ey : Z).
Hypothesis rate_value : Prim2SF rate = S754_finite false my ey.
Hypothesis rate_binade : 2 <= Z.pos (digits2_pos my) + ey.

Lemma float_mul_rate_pos h :
  PrimFloat.ltb 0 h = true -> PrimFloat.ltb 0 (PrimFloat.mul h rate) = true.
Proof.
  rewrite !FloatAxioms.ltb_spec, FloatAxioms.mul_spec, Prim2SF_zero.
  rewrite rate_value. intros Hh.
  apply SFmul_pos; [apply Prim2SF_valid|exact Hh|exact rate_binade].
Qed.

Lemma float_mul_rate_not_pos h :
  sf_is_nan (Prim2SF h) = false -> PrimFloat.ltb 0 h = false ->
  PrimFloat.ltb 0 (PrimFloat.mul h rate) = false.
Proof.
  rewrite !FloatAxioms.ltb_spec, FloatAxioms.mul_spec, Prim2SF_zero.
  rewrite rate_value. intros Hnan Hh.
  destruct (Prim2SF h) as [[|]|[|]| |[|] mx ex]; try discriminate;
    try reflexivity.
  unfold SF64mul, SFmul. cbn [xorb].
  apply SFltb_zero_signed_true, binary_round_aux_signed. lia.
Qed.
End Rates.

Lemma STUDENT_RATE_binade :
  exists my ey, Prim2SF STUDENT_RATE = S754_finite false my ey /\
                2 <= Z.pos (digits2_pos my) + ey.
Proof. eexists _, _. split; [reflexivity|]. vm_compute. discriminate. Qed.

Lemma STAFF_RATE_binade :
  exists my ey, Prim2SF STAFF_RATE = S754_finite false my ey /\
                2 <= Z.pos (digits2_pos my) + ey.
Proof. eexists _, _. split; [reflexivity|]. vm_compute. discriminate. Qed.

(** X22. Who pays: for hours that are a number not below zero, the fee of
    a student pass is above zero exactly when the hours are, and the fee
    of a staff pass is above zero exactly when the hours exceed one (the
    product with the rate cannot underflow to zero). *)
Theorem X22_fee_positive_exactly_when_charged (pass_id : string * datetime)
    (driver : Driver) (h : float) :
  PrimFloat.leb 0 h = true ->
  (exists fee,
     calculate_fee (StudentPass_init pass_id driver) h = Return fee /\
     PrimFloat.ltb 0 fee = PrimFloat.ltb 0 h) /\
  (exists fee,
     calculate_fee (StaffPass_init pass_id driver) h = Return fee /\
     PrimFloat.ltb 0 fee = negb (PrimFloat.leb h 1)).
Proof.
  intros Hh.
  pose proof (nonneg_hours_accepted h Hh) as Hneg.
  assert (Hnan : sf_is_nan (Prim2SF h) = false).
  { apply sf_nonneg_not_nan. rewrite <- float_leb_zero. exact Hh. }
  destruct STUDENT_RATE_binade as (m2 & e2 & Hr2 & Hb2).
  destruct STAFF_RATE_binade as (m3 & e3 & Hr3 & Hb3).
  unfold calculate_fee, StudentPass_calculate_fee, ParkingPass_calculate_fee,
    StaffPass_calculate_fee. cbn [pass_cls StudentPass_init StaffPass_init
    fee_rate]. rewrite Hneg. split.
  - eexists. split; [reflexivity|].
    destruct (PrimFloat.ltb 0 h) eqn:Hpos.
    + apply (float_mul_rate_pos _ _ _ Hr2 Hb2), Hpos.
    + apply (float_mul_rate_not_pos _ _ _ Hr2); assumption.
  - destruct (PrimFloat.leb h 1) eqn:Hle.
    + eexists. split; reflexivity.
    + eexists. split; [reflexivity|]. cbn [negb].
      apply (float_mul_rate_pos _ _ _ Hr3 Hb3).
      apply float_sub_one_pos; assumption.
Qed.

Lemma X22_fee_positive_exactly_when_charged_witness :
  (exists fee,
     calculate_fee (StudentPass_init ("AA11", 0) sample_driver) 0.75
       = Return fee /\
     PrimFloat.ltb 0 fee = PrimFloat.ltb 0 0.75) /\
  (exists fee,
     calculate_fee (StaffPass_init ("AA11", 0) sample_driver) 0.75
       = Return fee /\
     PrimFloat.ltb 0 fee = negb (PrimFloat.leb 0.75 1)).
Proof.
  exact (X22_fee_positive_exactly_when_charged ("AA11", 0) sample_driver 0.75
           eq_refl).
Defined.
